(* ===== verification/_CoqProject ===== *)
-Q . S2P
Prelude.v
JsString.v
ScrollTracker.v
Navigation.v
ContactForm.v
Listeners.v
Page.v
Status.v
SmoothScroll.v
View.v
Content.v
Animations.v
StaticView.v
