(* ===== verification/Prelude.v ===== *)
(** * A verification development of the portfolio page [src/app/page.tsx]

    ** The program

    The repository is a Next.js site with one client component,
    [Portfolio] in [src/app/page.tsx].  It keeps React state for four
    concerns and attaches handlers to the window and to the markup:
    - the scroll tracker: [handleScroll] (page.tsx:28-47) marks as active
      the first of the sections "home", "about", "services", "contact"
      whose box contains the point 200 pixels below the viewport's top;
    - navigation: [scrollToSection] (97-104) sets the section at once,
      closes the mobile menu and starts a smooth scroll; [toggleMenu]
      (106-108) flips the menu; [handleResize] (53-57) closes it when the
      window is wider than 768 pixels;
    - the contact form: [handleChange] (70-78) writes one key of
      [formData]; the async [handleSubmit] (80-95) sets [isSubmitting],
      awaits a 1000 ms timer and then reports success and clears the
      fields ([catch]: a failure message; [finally]: clears
      [isSubmitting]);
    - decoration: [handleMouseMove] (49-51) and the [onMouseEnter] /
      [onMouseLeave] props write [cursorPosition] and [isHoveringLink].
    One [useEffect] (27-68) registers the three window listeners and
    returns their cleanup.  The JSX renders the navigation (desktop list
    from Tailwind's [md] breakpoint up, menu button and mobile menu below
    it), the static content and the form.

    ** The files

    - [Prelude]: this header, the [page_scope] notation [a === b] for
      JavaScript's strict string equality, the [bool_props] tactic that
      turns the code's boolean tests into propositions, the hint databases
      [page] and [page_rw], and the list lemmas the files share.
    - [JsString]: the JavaScript runtime's [String.prototype.includes],
      [charAt(0)], [slice(1)] and ASCII [toUpperCase], which the page
      calls, and the navigation labels; [includes] is shown to decide
      substring occurrence, the fact the message colour relies on.
    - [ScrollTracker] (Module [ScrollTracker]): the document's geometry as
      a function [document] from ids to boxes ([getElementById] with
      [offsetTop]/[offsetHeight]), the loop [scan_sections] with its
      [break], [handleScroll] and its state update [scroll_update]; the
      abstract specification [active_after] (a [first_match] relation)
      and the refinement theorem; the page's stacked layout
      ([stack], [page_blocks]: the sections in document order, two of
      them without an [id]).  The class [ActiveTracker] is the interface
      the page uses; [handleScroll_tracker] is its instance.
    - [Navigation]: [nav_state] ([activeSection], [isMenuOpen]),
      [toggleMenu], [handleResize], [scrollToSection] with the browser
      work it requests ([ScrollIntoView]), the [md] breakpoint, and
      [scroll_rest], the browser's clamp of the target's top to the
      scrollable range (a model of the browser, not of page code).
    - [ContactForm]: [form_state]; [formData] is a [gmap string string]
      (the JavaScript object, so [{...prev, [name]: value}] is [insert]);
      a state-and-exception monad [M] with [try_catch] and [try_finally]
      gives [handleSubmit] its control flow, split at its [await] into
      [handleSubmit_start] and [handleSubmit_resume]; [message_view] is
      the colour of the status line.
    - [Listeners]: the window's listener registry, [addEventListener],
      [removeEventListener], the effect's setup and cleanup.
    - [Page] (Module [Page]): the whole state ([page]: React state plus a
      [window] with scroll offset, width, layout, listeners and pending
      timers), the events the page offers ([event]), [dispatch] which runs
      the handlers the code attaches to each (window events through the
      registry), the guards the markup imposes (a disabled submit button,
      [required] inputs, buttons hidden by breakpoint), and [reachable],
      the states reachable from the mounted page.  It is a Section over
      an [ActiveTracker] instance and over the browser's e-mail check.
    - [Status] (Module [Status]): the spec's submission machine (Idle,
      Submitting, Success, Failure) as a step relation, the abstraction
      [status_of] from [isSubmitting] and [submitMessage], and the events
      the page acts on as submission steps ([accepted]).
    - [SmoothScroll] (Module [SmoothScroll]): an environment model of the
      browser's smooth scroll that [scrollIntoView({ behavior: "smooth" })]
      starts: the offsets of its frames ([frame], [frames]) at a constant
      speed, each delivered to the page as a scroll event.  It is an
      assumption about the browser, used to state what the page does
      during and after the scroll.
    - [View]: [render], the JSX as a function of the state, and the
      equivalence [decor_equiv] (equal up to the decorative state) with
      its [Proper] instances.
    - [Content]: the static data (services, projects, about items,
      skills, contact entries) and the document's ids.
    - [Animations] (Module [Animations]): [sectionVariants] and
      [itemVariants] (110-122) as animation targets, with the delay of
      [itemVariants.visible] computed from the [custom] index each list
      passes (429, 475, 532, 568, 634, 711, 732).
    - [StaticView] (Module [StaticView]): the markup of the static
      sections: the six [<section>]s with their [aria-labelledby]
      headings, the about, service, skill and project cards as [imap]s
      over the data (the index is both the React [key] and the [custom]),
      the project tags, the contact section's three columns and the
      footer line.
    [Content], [Animations] and [StaticView] hold definitions only: what
    they describe is fixed data, on which a theorem would be a
    computation on constants rather than a property of the code.

    ** The theorems

    - Invariants of the reachable states, by induction on [reachable]:
      the active section is one of the four named sections (C1); one
      submission at most is in flight and [isSubmitting] holds exactly
      while its timer is pending (C2); [formData] keeps its three keys
      (C7); each rendered navigation list highlights exactly one button
      (C6); the status line is never the failure message, so the [catch]
      branch is dead code (C16).
    - Refinement of the spec's submission machine: every event the page
      acts on is the machine's submit or settle step, every other event a
      stutter (C23); the rendered form shows that status: the button is
      disabled exactly while Submitting and, outside Submitting, the green
      line shows exactly on Success (C25).
    - Functional behaviour: the scroll listener refines [active_after]
      (C4) and, in a stacked layout, selects the unique section containing
      the probe (C5, C13); the continuation of [handleSubmit] on both
      outcomes of the promise (C8); the window handlers on the page (C9);
      [handleResize] (C17); the menu button (C18); [handleChange] (C19);
      the message colour (C20).
    - A submission accepted by the browser completes at the next timer
      event whatever happens in between (C3); at the resting point of the
      smooth scroll a navigation click starts, the scroll listener itself
      finds the clicked section (C14); a navigation click followed by the
      frames of its smooth scroll lands on the clicked section with the
      menu closed (C24).
    - Listeners: cleanup undoes setup (C21) and setup adds one listener
      per event type (C22), for any registry.
    - Decoration is unobservable: pages equal up to [cursorPosition] and
      [isHoveringLink] render the same after any events (C15).
    - Findings: at exactly 768 pixels the desktop layout shows while an
      open mobile menu stays open (C10); text typed during a submission
      is discarded (C11); the previous thank-you message stays visible
      while the next submission is sending (C12).

    ** Choices and bounds

    Lengths are pixels in [Z] (the DOM's [offsetTop]/[offsetHeight] are
    integers; [scrollY] is taken integral).  The only fuel is the number
    of frames of a smooth scroll ([frames]); C24 assumes at least
    [|target - y| / speed] frames at a positive speed, which
    [frames_last] shows is enough for the frames to end at the target.
    All other recursion is structural on lists and strings.  Animation
    delays are milliseconds in [Z]: [i * 0.1] seconds is [i * 100] ms,
    exact for the integer indices the page passes.  Timers are a count
    of pending continuations, since the page only ever creates one kind.
    The e-mail check of [type="email"] is a parameter ([email_ok]): the
    browser implements it, not the code.

    ** Not modelled

    Framer-motion's interpolation between the variants (only the
    targets and their timing are modelled; the fourteen elements without
    [custom] get the delay [undefined * 0.1], [NaN], whose handling is
    framer-motion's), and [AnimatePresence]'s exit animation: the mobile
    menu's buttons stay mounted for 0.3 s after it closes (265-271), while
    the model removes them at once.  Tailwind styling other than the
    breakpoint and the active, colour and overlay classes, images and
    fonts (static assets), the browser's easing of the smooth scroll (a
    constant speed per frame stands for it), events before the effect
    first runs (the model starts from the mounted page), and the Next.js
    build.  [toggleMenu] reads the rendered [isMenuOpen]; React re-renders
    between two clicks, so the model reads the current state.  Strings
    are 8-bit: [toUpperCase] is its ASCII part, the only part the page's
    items use. *)

From stdpp Require Export base strings gmap list relations.
From Stdlib Require Export ZArith Lia.

Declare Scope page_scope.
Delimit Scope page_scope with page.

(** JavaScript's strict equality on strings, [a === b]. *)
Notation "a === b" := (String.eqb a b) (at level 70, no associativity) : page_scope.

Create HintDb page.
Create Rewrite HintDb page_rw.

(** Turn the boolean tests of the code into propositions. *)
Ltac bool_props :=
  repeat match goal with
  | H : (_ && _)%bool = true |- _ => apply andb_prop in H as [? ?]
  | H : (_ <=? _)%Z = true |- _ => apply Z.leb_le in H
  | H : (_ <=? _)%Z = false |- _ => apply Z.leb_gt in H
  | H : (_ <? _)%Z = true |- _ => apply Z.ltb_lt in H
  | H : (_ <? _)%Z = false |- _ => apply Z.ltb_ge in H
  | H : String.eqb _ _ = true |- _ => apply String.eqb_eq in H; subst
  | H : negb _ = true |- _ => apply negb_true_iff in H
  | H : negb _ = false |- _ => apply negb_false_iff in H
  end.

Lemma string_eqb_refl_true (s : string) : (s === s)%page = true.
Proof. apply String.eqb_refl. Qed.

Lemma string_eqb_neq (a b : string) : a <> b -> (a === b)%page = false.
Proof. apply String.eqb_neq. Qed.

#[export] Hint Rewrite string_eqb_refl_true : page_rw.
#[export] Hint Resolve string_eqb_neq : page.

(** A property kept by every step of a [fold_left] holds at its end. *)
Lemma fold_left_inv {A B} (P : A -> Prop) (f : A -> B -> A) (l : list B) (a : A) :
  P a -> (forall a b, P a -> P (f a b)) -> P (fold_left f l a).
Proof. revert a. induction l as [|b l IH]; simpl; auto. Qed.

(** The last element of a non-empty list, seen from its head. *)
Lemma last_cons_default {A} (a d : A) (l : list A) : List.last (a :: l) d = List.last l a.
Proof.
  revert a d. induction l as [|b l IH]; intros a d; [done|].
  change (List.last (a :: b :: l) d) with (List.last (b :: l) d). by rewrite !IH.
Qed.

(** A left fold whose step function forgets the accumulator at [t] ends
    with the value it gives there, when the list ends with [t]. *)
Lemma fold_left_last_const {A B} (f : A -> B -> A) (ys : list B) (a0 c : A) (d t : B) :
  (forall a, f a t = c) -> List.last ys d = t -> (ys = [] -> a0 = c) ->
  fold_left f ys a0 = c.
Proof.
  intros Hf Hl He. destruct ys as [|y ys] using rev_ind; [by apply He|].
  rewrite fold_left_app. simpl. rewrite last_last in Hl. subst. apply Hf.
Qed.

Lemma fold_left_map_compose {A B C} (f : A -> B -> A) (g : C -> B) (l : list C) (a : A) :
  fold_left f (map g l) a = fold_left (fun x y => f x (g y)) l a.
Proof. revert a. induction l; simpl; auto. Qed.
