(* ===== verification/JsString.v ===== *)
(** * The string operations of [page.tsx]

    The page compares strings with [===], tests the submit message with
    [submitMessage.includes("Thank you")] (page.tsx:839-841) and builds
    the navigation labels with
    [item.charAt(0).toUpperCase() + item.slice(1)] (page.tsx:211, 288).
    JavaScript strings are UTF-16; the page only handles ASCII text in
    these places, so strings are Stdlib's [string] of 8-bit characters
    and [toUpperCase] is its ASCII restriction. *)

From S2P Require Import Prelude.
Import ListNotations.
Open Scope string_scope.

Module JsString.

(** [s.startsWith(prefix)]: the prefix test [includes] performs at each index. *)
Fixpoint startsWith (s prefix : string) : bool :=
  match prefix, s with
  | EmptyString, _ => true
  | String c p', String d s' => Ascii.eqb c d && startsWith s' p'
  | String _ _, EmptyString => false
  end.

(** [s.includes(searchString)]: some index [0 <= i <= s.length] at which
    [searchString] occurs. *)
Fixpoint includes (s searchString : string) : bool :=
  startsWith s searchString ||
  match s with
  | EmptyString => false
  | String _ s' => includes s' searchString
  end.

(** [s.charAt(0)]: the first character, or [""] for the empty string. *)
Definition charAt0 (s : string) : string :=
  match s with
  | EmptyString => EmptyString
  | String c _ => String c EmptyString
  end.

(** [s.slice(1)]: everything after the first character ([""] stays [""]). *)
Definition slice1 (s : string) : string :=
  match s with
  | EmptyString => EmptyString
  | String _ s' => s'
  end.

Definition is_lower (c : Ascii.ascii) : bool :=
  (97 <=? Ascii.nat_of_ascii c)%nat && (Ascii.nat_of_ascii c <=? 122)%nat.

Definition upper_char (c : Ascii.ascii) : Ascii.ascii :=
  if is_lower c then Ascii.ascii_of_nat (Ascii.nat_of_ascii c - 32) else c.

(** [s.toUpperCase()] on ASCII text. *)
Fixpoint toUpperCase (s : string) : string :=
  match s with
  | EmptyString => EmptyString
  | String c s' => String (upper_char c) (toUpperCase s')
  end.

(** The label of a navigation button:
    [item.charAt(0).toUpperCase() + item.slice(1)]. *)
Definition nav_label (item : string) : string :=
  toUpperCase (charAt0 item) ++ slice1 item.

(** ** [includes] against its specification *)

Lemma startsWith_spec s p : startsWith s p = true <-> exists rest, s = p ++ rest.
Proof.
  revert s. induction p as [|c p IH]; intros [|d s]; simpl.
  - split; [by exists EmptyString|done].
  - split; [by eexists|done].
  - split; [done|by intros [? ?]].
  - rewrite andb_true_iff, IH. split.
    + intros [Hc [rest ->]]. apply Ascii.eqb_eq in Hc as ->. by exists rest.
    + intros [rest [= -> ->]]. split; [apply Ascii.eqb_refl|by exists rest].
Qed.

Lemma includes_iff s t :
  includes s t = true <-> exists before after, s = before ++ t ++ after.
Proof.
  induction s as [|c s IH]; cbn [includes]; rewrite orb_true_iff, startsWith_spec.
  - split.
    + intros [[rest Hr]|[=]]. by exists EmptyString, rest.
    + intros (before & after & H). destruct before as [|? ?]; [|done].
      left. by exists after.
  - rewrite IH. split.
    + intros [[rest ->]|(b & a & ->)]; [by exists EmptyString, rest|].
      by exists (String c b), a.
    + intros ([|c' b] & a & H); simpl in H; [left; by exists a|].
      injection H as -> ->. right. by exists b, a.
Qed.

(** ** Labels *)

Lemma length_toUpperCase s : String.length (toUpperCase s) = String.length s.
Proof. induction s; simpl; congruence. Qed.

Lemma toUpperCase_idem s : toUpperCase (toUpperCase s) = toUpperCase s.
Proof.
  induction s as [|c s IH]; simpl; [done|]. rewrite IH. f_equal.
  unfold upper_char. destruct (is_lower c) eqn:E; [|by rewrite E].
  destruct (is_lower (Ascii.ascii_of_nat _)) eqn:E'; [|done].
  exfalso. unfold is_lower in *.
  apply andb_prop in E as [E1 E2]; apply andb_prop in E' as [E3 E4].
  apply Nat.leb_le in E1, E2, E3. rewrite Ascii.nat_ascii_embedding in E3 by lia. lia.
Qed.

(** The labels shown by the navigation (page.tsx:211, 288). *)
Example nav_labels :
  map nav_label ["home"; "about"; "services"; "contact"] = ["Home"; "About"; "Services"; "Contact"].
Proof. reflexivity. Qed.

End JsString.
