(* ===== verification/ScrollTracker.v ===== *)
(** * Scroll tracker: the [handleScroll] listener of [page.tsx]

    [handleScroll] (page.tsx:28-47) probes the point 200 pixels below the
    top of the viewport and marks as active the first of the four named
    sections whose box contains it.  This file models the document's
    geometry ([getElementById] with [offsetTop]/[offsetHeight]), the
    listener, an abstract specification of it, and the page's stacked
    layout, in which the "first match" is the only match. *)

From S2P Require Import Prelude.
Import ListNotations.
Open Scope Z_scope.
Open Scope page_scope.

Module ScrollTracker.

(** [const sections = ["home", "about", "services", "contact"]] *)
Definition sections : list string := ["home"; "about"; "services"; "contact"].

(** The geometry of an element: [element.offsetTop], [element.offsetHeight]. *)
Record box := mkBox { offsetTop : Z; offsetHeight : Z }.

(** [document.getElementById], seen through the geometry it returns:
    [None] is [null]. *)
Definition document := string -> option box.

(** [scrollPosition >= offsetTop && scrollPosition < offsetTop + offsetHeight] *)
Definition probe_in (scrollPosition : Z) (b : box) : bool :=
  (offsetTop b <=? scrollPosition) && (scrollPosition <? offsetTop b + offsetHeight b).

(** The [for (const section of sections)] loop: a missing element is
    skipped, the first hit calls [setActiveSection(section)] and [break]s. *)
Fixpoint scan_sections (doc : document) (scrollPosition : Z) (l : list string)
    : option string :=
  match l with
  | [] => None
  | section :: rest =>
      match doc section with
      | Some element =>
          if probe_in scrollPosition element then Some section
          else scan_sections doc scrollPosition rest
      | None => scan_sections doc scrollPosition rest
      end
  end.

(** The listener: the section it passes to [setActiveSection], if any. *)
Definition handleScroll (doc : document) (scrollY : Z) : option string :=
  let scrollPosition := scrollY + 200 in
  scan_sections doc scrollPosition sections.

(** Its effect on the [activeSection] state: without a call the state is kept. *)
Definition scroll_update (doc : document) (scrollY : Z) (activeSection : string) : string :=
  match handleScroll doc scrollY with
  | Some section => section
  | None => activeSection
  end.

(** ** Abstract specification *)

(** Section [s] exists in the document and its box contains [p]. *)
Definition contains (doc : document) (p : Z) (s : string) : Prop :=
  exists b, doc s = Some b /\ offsetTop b <= p < offsetTop b + offsetHeight b.

(** [s] is the first element of [l] satisfying [P]. *)
Inductive first_match (P : string -> Prop) : list string -> string -> Prop :=
  | fm_here s l : P s -> first_match P (s :: l) s
  | fm_later s l r : ~ P s -> first_match P l r -> first_match P (s :: l) r.

(** What the listener promises: the active section after a scroll event. *)
Definition active_after (doc : document) (scrollY : Z) (prev next : string) : Prop :=
  first_match (contains doc (scrollY + 200)) sections next \/
  ((forall s, In s sections -> ~ contains doc (scrollY + 200) s) /\ next = prev).

(** ** The page's stacked layout *)

(** A block of the normal flow: its [id] attribute, if any, and its height. *)
Record block := mkBlock { block_id : option string; block_height : Z }.

(** Blocks laid out one below the other, starting at [top]. *)
Fixpoint stack (top : Z) (bs : list block) : list (option string * box) :=
  match bs with
  | [] => []
  | b :: rest => (block_id b, mkBox top (block_height b)) :: stack (top + block_height b) rest
  end.

(** [getElementById] on a list of elements in tree order: the first with the id. *)
Fixpoint getElementById (els : list (option string * box)) (id : string) : option box :=
  match els with
  | [] => None
  | (Some id', b) :: rest => if id' === id then Some b else getElementById rest id
  | (None, _) :: rest => getElementById rest id
  end.

Definition flow_doc (bs : list block) : document := getElementById (stack 0 bs).

(** The flow content of [<div className="relative z-10">]: the fixed header
    and the fixed mobile menu take no room; then the home, about and
    services sections, the two sections without an [id] (skills,
    projects), the contact section and the footer. *)
Definition page_blocks (h_home h_about h_services h_skills h_projects h_contact h_footer : Z)
    : list block :=
  [mkBlock (Some "home") h_home; mkBlock (Some "about") h_about;
   mkBlock (Some "services") h_services; mkBlock None h_skills;
   mkBlock None h_projects; mkBlock (Some "contact") h_contact;
   mkBlock None h_footer].

(** ** The listener against its specification *)

Lemma probe_in_spec p b :
  probe_in p b = true <-> offsetTop b <= p < offsetTop b + offsetHeight b.
Proof. unfold probe_in. rewrite andb_true_iff, Z.leb_le, Z.ltb_lt. lia. Qed.

Definition contains_b (doc : document) (p : Z) (s : string) : bool :=
  match doc s with Some b => probe_in p b | None => false end.

Lemma contains_b_spec doc p s : contains_b doc p s = true <-> contains doc p s.
Proof.
  unfold contains_b, contains. destruct (doc s) as [b|]; split.
  - intros H. exists b. split; [done|]. by apply probe_in_spec.
  - intros (b' & [= <-] & H). by apply probe_in_spec.
  - done.
  - by intros (? & ? & _).
Qed.

Lemma scan_sections_cons doc p x l :
  scan_sections doc p (x :: l) =
  if contains_b doc p x then Some x else scan_sections doc p l.
Proof. simpl. unfold contains_b. by destruct (doc x). Qed.

Lemma scan_sections_some doc p l s :
  scan_sections doc p l = Some s <-> first_match (contains doc p) l s.
Proof.
  induction l as [|x l IH]; [split; [done | inversion 1]|].
  rewrite scan_sections_cons.
  destruct (contains_b doc p x) eqn:E;
    [apply contains_b_spec in E | assert (~ contains doc p x) by (rewrite <-contains_b_spec; congruence)].
  - split; [intros [= <-]; by constructor|]. inversion 1; subst; [done|tauto].
  - rewrite IH. split; [intros; by apply fm_later|]. inversion 1; subst; [tauto|done].
Qed.

Lemma scan_sections_none doc p l :
  scan_sections doc p l = None <-> forall s, In s l -> ~ contains doc p s.
Proof.
  induction l as [|x l IH]; [done|].
  rewrite scan_sections_cons.
  destruct (contains_b doc p x) eqn:E;
    [apply contains_b_spec in E | assert (~ contains doc p x) by (rewrite <-contains_b_spec; congruence)].
  - split; [done|]. intros Hall. exfalso. apply (Hall x); [left|]; done.
  - rewrite IH. split; [intros Hall s [<-|Hs]; [done|by apply Hall]|].
    intros Hall s Hs. apply Hall. by right.
Qed.

Lemma first_match_det P l s1 s2 :
  first_match P l s1 -> first_match P l s2 -> s1 = s2.
Proof.
  induction 1 as [s l Hs|s l r Hn Hr IH]; inversion 1; subst; auto; tauto.
Qed.

Lemma first_match_in P l s : first_match P l s -> In s l /\ P s.
Proof. induction 1; simpl; tauto. Qed.

Lemma active_after_det doc y prev n1 n2 :
  active_after doc y prev n1 -> active_after doc y prev n2 -> n1 = n2.
Proof.
  unfold active_after.
  intros [H1|[H1 ->]] [H2|[H2 ->]]; eauto using first_match_det.
  - destruct (first_match_in _ _ _ H1). exfalso. by eapply H2.
  - destruct (first_match_in _ _ _ H2). exfalso. by eapply H1.
Qed.

Lemma scroll_update_active_after doc y prev :
  active_after doc y prev (scroll_update doc y prev).
Proof.
  unfold scroll_update, handleScroll, active_after.
  destruct (scan_sections doc (y + 200) sections) as [s|] eqn:E.
  - left. by apply scan_sections_some.
  - right. split; [by apply scan_sections_none|done].
Qed.

(** C4: the listener refines its specification: the active section after
    a scroll event is exactly the one [active_after] allows. *)
Theorem scroll_update_refines doc scrollY prev next :
  active_after doc scrollY prev next <-> next = scroll_update doc scrollY prev.
Proof.
  split.
  - intros H. eapply active_after_det; [exact H|]. apply scroll_update_active_after.
  - intros ->. apply scroll_update_active_after.
Qed.

(** ** Stacked layout: at most one block contains a point *)

Definition nonneg_heights (bs : list block) : Prop :=
  Forall (fun b => 0 <= block_height b) bs.

Lemma stack_top_ge t bs e :
  nonneg_heights bs -> In e (stack t bs) -> t <= offsetTop (snd e).
Proof.
  revert t. induction bs as [|b bs IH]; intros t Hnn; simpl; [done|].
  inversion Hnn as [|? ? Hb Hbs]; subst.
  intros [<-|He]; simpl; [lia|]. specialize (IH _ Hbs He). lia.
Qed.

Definition in_box (p : Z) (e : option string * box) : Prop :=
  offsetTop (snd e) <= p < offsetTop (snd e) + offsetHeight (snd e).

Lemma stack_point_unique t bs p e1 e2 :
  nonneg_heights bs -> In e1 (stack t bs) -> In e2 (stack t bs) ->
  in_box p e1 -> in_box p e2 -> e1 = e2.
Proof.
  unfold in_box. revert t. induction bs as [|b bs IH]; intros t Hnn; simpl; [done|].
  inversion Hnn as [|? ? Hb Hbs]; subst.
  intros [<-|H1] [<-|H2]; simpl; intros P1 P2; [done| | |by eapply IH].
  - pose proof (stack_top_ge _ _ _ Hbs H2). simpl in *. lia.
  - pose proof (stack_top_ge _ _ _ Hbs H1). simpl in *. lia.
Qed.

Lemma getElementById_In els id b :
  getElementById els id = Some b -> In (Some id, b) els.
Proof.
  induction els as [|[[id'|] b'] els IH]; simpl; [done| |eauto].
  destruct (String.eqb_spec id' id) as [->|_]; [intros [= ->]; by left|eauto].
Qed.

Lemma contains_flow_unique bs p s1 s2 :
  nonneg_heights bs -> contains (flow_doc bs) p s1 -> contains (flow_doc bs) p s2 -> s1 = s2.
Proof.
  intros Hnn (b1 & E1 & P1) (b2 & E2 & P2).
  apply getElementById_In in E1, E2.
  assert (Heq : (Some s1, b1) = (Some s2, b2)) by (eapply stack_point_unique; eauto).
  congruence.
Qed.

(** Where at most one candidate satisfies [P], the first match is the match. *)
Lemma first_match_unique (P : string -> Prop) l s :
  (forall x, P x \/ ~ P x) ->
  (forall a b, P a -> P b -> a = b) ->
  first_match P l s <-> In s l /\ P s.
Proof.
  intros Hdec Huniq. split; [apply first_match_in|].
  induction l as [|x l IH]; simpl; [tauto|].
  intros [[<-|Hin] Hs]; [by constructor|].
  destruct (Hdec x) as [Hx|Hx].
  - rewrite (Huniq x s Hx Hs). by constructor.
  - apply fm_later; [done|]. by apply IH.
Qed.

Lemma contains_dec doc p s : contains doc p s \/ ~ contains doc p s.
Proof.
  rewrite <-contains_b_spec. destruct (contains_b doc p s); [left|right]; congruence.
Qed.

Lemma handleScroll_stacked bs scrollY s :
  nonneg_heights bs ->
  handleScroll (flow_doc bs) scrollY = Some s <->
  In s sections /\ contains (flow_doc bs) (scrollY + 200) s.
Proof.
  intros Hnn. unfold handleScroll. rewrite scan_sections_some.
  apply first_match_unique; [apply contains_dec|].
  intros a b. by apply contains_flow_unique.
Qed.

(** C5: in a stacked layout the listener's choice does not depend on the
    order of [sections]: it selects a section exactly when that section
    is the one whose box contains the probe point. *)
Theorem stacked_handleScroll bs scrollY s :
  nonneg_heights bs ->
  handleScroll (flow_doc bs) scrollY = Some s <->
  In s sections /\ contains (flow_doc bs) (scrollY + 200) s.
Proof. exact (handleScroll_stacked bs scrollY s). Qed.
(** The page's four named sections in its stacked layout. *)
Lemma page_doc_sections hh ha hs hk hp hc hf :
  let doc := flow_doc (page_blocks hh ha hs hk hp hc hf) in
  doc "home" = Some (mkBox 0 hh) /\
  doc "about" = Some (mkBox (0 + hh) ha) /\
  doc "services" = Some (mkBox (0 + hh + ha) hs) /\
  doc "contact" = Some (mkBox (0 + hh + ha + hs + hk + hp) hc).
Proof. repeat split. Qed.

Lemma probe_in_false p b :
  ~ (offsetTop b <= p < offsetTop b + offsetHeight b) -> probe_in p b = false.
Proof. rewrite <-probe_in_spec. destruct (probe_in p b); tauto. Qed.

(** C13: the skills and projects sections carry no [id]: while the probe
    point lies in them, a scroll event keeps the previously active section. *)
Theorem page_gap_keeps_active hh ha hs hk hp hc hf scrollY prev :
  nonneg_heights (page_blocks hh ha hs hk hp hc hf) ->
  hh + ha + hs <= scrollY + 200 < hh + ha + hs + hk + hp ->
  scroll_update (flow_doc (page_blocks hh ha hs hk hp hc hf)) scrollY prev = prev.
Proof.
  intros Hnn Hp. unfold nonneg_heights, page_blocks in Hnn.
  rewrite !Forall_cons in Hnn. simpl in Hnn.
  unfold scroll_update, handleScroll, sections.
  destruct (page_doc_sections hh ha hs hk hp hc hf) as (Eh & Ea & Es & Ec).
  simpl in Eh, Ea, Es, Ec.
  rewrite !scan_sections_cons. unfold contains_b.
  rewrite Eh, Ea, Es, Ec, !probe_in_false by (simpl; lia). done.
Qed.
(** ** Witnesses on a concrete layout *)

Lemma demo_nonneg : nonneg_heights (page_blocks 900 800 700 600 900 800 100).
Proof. repeat constructor; simpl; lia. Qed.

Lemma stacked_handleScroll_witness :
  nonneg_heights (page_blocks 900 800 700 600 900 800 100) /\
  (handleScroll (flow_doc (page_blocks 900 800 700 600 900 800 100)) 1900 = Some "services" <->
   In "services" sections /\
   contains (flow_doc (page_blocks 900 800 700 600 900 800 100)) (1900 + 200) "services").
Proof. split; [apply demo_nonneg|]. apply stacked_handleScroll, demo_nonneg. Defined.

Lemma page_gap_keeps_active_witness :
  nonneg_heights (page_blocks 900 800 700 600 900 800 100) /\
  900 + 800 + 700 <= 2300 + 200 < 900 + 800 + 700 + 600 + 900 /\
  scroll_update (flow_doc (page_blocks 900 800 700 600 900 800 100)) 2300 "services" = "services".
Proof.
  split; [apply demo_nonneg|]. split; [lia|].
  apply page_gap_keeps_active; [apply demo_nonneg|lia].
Defined.

End ScrollTracker.

(** ** The interface the page relies on

    The page composes the listener with the other handlers through this
    class: every scroll event either keeps the active section or makes one
    of the four named sections active, and repeating the same event
    changes nothing more. *)
Class ActiveTracker := {
  track : ScrollTracker.document -> Z -> string -> string;
  track_keeps_or_names : forall doc y prev,
    track doc y prev = prev \/ In (track doc y prev) ScrollTracker.sections;
  track_idem : forall doc y prev, track doc y (track doc y prev) = track doc y prev;
}.

Lemma scroll_update_keeps_or_names doc y prev :
  ScrollTracker.scroll_update doc y prev = prev \/
  In (ScrollTracker.scroll_update doc y prev) ScrollTracker.sections.
Proof.
  unfold ScrollTracker.scroll_update, ScrollTracker.handleScroll.
  destruct (ScrollTracker.scan_sections _ _ _) as [s|] eqn:E; [right|by left].
  apply ScrollTracker.scan_sections_some, ScrollTracker.first_match_in in E. tauto.
Qed.

Lemma scroll_update_idem doc y prev :
  ScrollTracker.scroll_update doc y (ScrollTracker.scroll_update doc y prev) =
  ScrollTracker.scroll_update doc y prev.
Proof.
  unfold ScrollTracker.scroll_update. by destruct (ScrollTracker.handleScroll doc y).
Qed.

#[export] Instance handleScroll_tracker : ActiveTracker := {
  track := ScrollTracker.scroll_update;
  track_keeps_or_names := scroll_update_keeps_or_names;
  track_idem := scroll_update_idem;
}.
