(* ===== verification/Navigation.v ===== *)
(** * Navigation: [scrollToSection], [toggleMenu] and [handleResize]

    The navigation state of [page.tsx] is [activeSection] (page.tsx:22)
    and [isMenuOpen] (page.tsx:23).  [scrollToSection] (page.tsx:97-104)
    sets the section optimistically, closes the menu and asks the browser
    to scroll; [toggleMenu] (page.tsx:106-108) flips the menu;
    [handleResize] (page.tsx:53-57) closes it on a viewport wider than
    768 pixels.  The markup shows the mobile menu only below Tailwind's
    [md] breakpoint ([md:hidden], page.tsx:272), i.e. below 768 pixels. *)

From S2P Require Import Prelude ScrollTracker.
Import ListNotations.
Open Scope Z_scope.
Open Scope page_scope.

Module Navigation.

Import ScrollTracker.

Record nav_state := mkNav { activeSection : string; isMenuOpen : bool }.

(** [useState("home")], [useState(false)] *)
Definition initial_nav : nav_state := mkNav "home" false.

(** The items of both navigation lists (page.tsx:198 and 275). *)
Definition nav_items : list string := ["home"; "about"; "services"; "contact"].

(** [setIsMenuOpen(!isMenuOpen)] *)
Definition toggleMenu (s : nav_state) : nav_state :=
  mkNav (activeSection s) (negb (isMenuOpen s)).

(** [if (window.innerWidth > 768) setIsMenuOpen(false)] *)
Definition handleResize (innerWidth : Z) (s : nav_state) : nav_state :=
  if 768 <? innerWidth then mkNav (activeSection s) false else s.

(** The browser work [scrollToSection] requests. *)
Inductive nav_effect := ScrollIntoView (element : box).

(** [setActiveSection(sectionId); setIsMenuOpen(false);] then
    [element.scrollIntoView({ behavior: "smooth" })] when the element exists. *)
Definition scrollToSection (doc : document) (sectionId : string) (s : nav_state)
    : nav_state * option nav_effect :=
  (mkNav sectionId false,
   match doc sectionId with
   | Some element => Some (ScrollIntoView element)
   | None => None
   end).

(** Tailwind's [md:] variant, [@media (min-width: 768px)]. *)
Definition md (innerWidth : Z) : bool := 768 <=? innerWidth.

(** [{isMenuOpen && <motion.div className="... md:hidden">}] *)
Definition mobile_menu_shown (innerWidth : Z) (s : nav_state) : bool :=
  isMenuOpen s && negb (md innerWidth).

(** Where a smooth [scrollIntoView] of [element] comes to rest: its top
    aligned with the viewport's top, clamped to the scrollable range
    [0 .. maxScrollY]. *)
Definition scroll_rest (maxScrollY : Z) (element : box) : Z :=
  Z.max 0 (Z.min (offsetTop element) maxScrollY).

(** ** Properties *)

(** Toggling the menu twice restores the state. *)
Lemma toggleMenu_involutive s : toggleMenu (toggleMenu s) = s.
Proof. destruct s as [a [|]]; reflexivity. Qed.

Lemma handleResize_cases innerWidth s :
  (768 < innerWidth -> handleResize innerWidth s = mkNav (activeSection s) false) /\
  (innerWidth <= 768 -> handleResize innerWidth s = s).
Proof.
  unfold handleResize. split; intros H.
  - by rewrite (proj2 (Z.ltb_lt _ _) H).
  - by rewrite (proj2 (Z.ltb_ge _ _) H).
Qed.

(** C17: a resize to a width above 768 closes the menu and keeps the
    active section; a resize to at most 768 changes nothing. *)
Theorem handleResize_spec innerWidth s :
  (768 < innerWidth -> handleResize innerWidth s = mkNav (activeSection s) false) /\
  (innerWidth <= 768 -> handleResize innerWidth s = s).
Proof. exact (handleResize_cases innerWidth s). Qed.

(** A navigation click sets the clicked section at once, closes the menu,
    and requests a scroll exactly when the section's element exists. *)
Lemma scrollToSection_cases doc sectionId s :
  fst (scrollToSection doc sectionId s) = mkNav sectionId false /\
  (forall element, snd (scrollToSection doc sectionId s) = Some (ScrollIntoView element) <->
                   doc sectionId = Some element) /\
  (snd (scrollToSection doc sectionId s) = None <-> doc sectionId = None).
Proof.
  unfold scrollToSection; simpl. destruct (doc sectionId) as [b|]; simpl.
  - split; [done|]. split; [|done]. intros e. split; congruence.
  - split; [done|]. split; [|done]. intros e. split; congruence.
Qed.

(** C10: the resize handler's threshold ([> 768]) and the markup's
    breakpoint ([md], [>= 768]) disagree at exactly 768 pixels: there the
    desktop layout is shown, yet an open menu stays open, and shrinking
    the window by one pixel shows it again without any click. *)
Theorem menu_survives_breakpoint s :
  isMenuOpen s = true ->
  md 768 = true /\
  isMenuOpen (handleResize 768 s) = true /\
  mobile_menu_shown 767 (handleResize 767 (handleResize 768 s)) = true.
Proof. intros H. unfold handleResize, mobile_menu_shown. simpl. by rewrite H. Qed.

Lemma scroll_rest_reached maxScrollY element :
  0 <= offsetTop element <= maxScrollY -> scroll_rest maxScrollY element = offsetTop element.
Proof. unfold scroll_rest. lia. Qed.

(** In a stacked layout, the scroll listener at the top of a section
    taller than the probe offset names that section. *)
Lemma handleScroll_at_top bs sectionId element :
  nonneg_heights bs -> In sectionId sections ->
  flow_doc bs sectionId = Some element -> 200 < offsetHeight element ->
  handleScroll (flow_doc bs) (offsetTop element) = Some sectionId.
Proof.
  intros Hnn Hin Hel Hh. apply (handleScroll_stacked _ _ _ Hnn). split; [done|].
  exists element. split; [done|lia].
Qed.

(** ... and so makes it active, whatever was active before. *)
Lemma scroll_update_at_top bs sectionId element prev :
  nonneg_heights bs -> In sectionId sections ->
  flow_doc bs sectionId = Some element -> 200 < offsetHeight element ->
  scroll_update (flow_doc bs) (offsetTop element) prev = sectionId.
Proof. intros. unfold scroll_update. by erewrite handleScroll_at_top. Qed.

(** C14: the optimistic update is confirmed by the scroll tracker once the
    smooth scroll ends: in a stacked layout, when the clicked item is one
    of the four sections, its top is within the scrollable range and it is
    taller than the 200-pixel probe offset, the scroll listener run at the
    resting position itself finds the clicked section (it does not merely
    keep the optimistic value). *)
Theorem scroll_confirms_optimistic bs sectionId s maxScrollY element :
  nonneg_heights bs -> In sectionId sections ->
  scrollToSection (flow_doc bs) sectionId s = (mkNav sectionId false, Some (ScrollIntoView element)) ->
  0 <= offsetTop element <= maxScrollY ->
  200 < offsetHeight element ->
  handleScroll (flow_doc bs) (scroll_rest maxScrollY element) = Some sectionId.
Proof.
  intros Hnn Hin Hnav Hrange Hh.
  destruct (scrollToSection_cases (flow_doc bs) sectionId s) as (_ & Heff & _).
  rewrite Hnav in Heff. simpl in Heff. pose proof (proj1 (Heff element) eq_refl) as Hel.
  rewrite scroll_rest_reached by done. by apply handleScroll_at_top.
Qed.

(** ** Witnesses *)

Lemma handleResize_spec_witness :
  768 < 1024 /\ handleResize 1024 (mkNav "about" true) = mkNav "about" false.
Proof. split; [lia|]. apply (proj1 (handleResize_spec 1024 (mkNav "about" true))). lia. Defined.

Lemma menu_survives_breakpoint_witness :
  isMenuOpen (mkNav "home" true) = true /\
  md 768 = true /\ isMenuOpen (handleResize 768 (mkNav "home" true)) = true /\
  mobile_menu_shown 767 (handleResize 767 (handleResize 768 (mkNav "home" true))) = true.
Proof. split; [reflexivity|]. apply menu_survives_breakpoint. reflexivity. Defined.

Lemma scroll_confirms_optimistic_witness :
  nonneg_heights (page_blocks 900 800 700 600 900 800 100) /\ In "services" sections /\
  scrollToSection (flow_doc (page_blocks 900 800 700 600 900 800 100)) "services" initial_nav =
    (mkNav "services" false, Some (ScrollIntoView (mkBox 1700 700))) /\
  0 <= offsetTop (mkBox 1700 700) <= 3000 /\ 200 < offsetHeight (mkBox 1700 700) /\
  handleScroll (flow_doc (page_blocks 900 800 700 600 900 800 100))
    (scroll_rest 3000 (mkBox 1700 700)) = Some "services".
Proof.
  assert (Hn : nonneg_heights (page_blocks 900 800 700 600 900 800 100)) by apply demo_nonneg.
  assert (Hi : In "services" sections) by (simpl; tauto).
  assert (He : scrollToSection (flow_doc (page_blocks 900 800 700 600 900 800 100)) "services" initial_nav =
    (mkNav "services" false, Some (ScrollIntoView (mkBox 1700 700)))) by reflexivity.
  split; [exact Hn|]. split; [exact Hi|]. split; [exact He|]. split; [simpl; lia|]. split; [simpl; lia|].
  apply (scroll_confirms_optimistic _ "services" initial_nav 3000 (mkBox 1700 700) Hn Hi He);
    simpl; lia.
Defined.

End Navigation.
