(* ===== verification/ContactForm.v ===== *)
(** * Contact form: [handleChange] and the async [handleSubmit]

    The form's state is [formData] (a JavaScript object, page.tsx:15-19),
    [isSubmitting] (page.tsx:20) and [submitMessage] (page.tsx:21).
    [handleChange] (page.tsx:70-78) writes one key, chosen by the input's
    [name].  [handleSubmit] (page.tsx:80-95) is an [async] function: it
    runs up to its [await], and the rest ([try] body after the await,
    [catch], [finally]) runs when the 1000 ms timer settles the promise.
    Its control flow is written in a small state-and-exception monad;
    the object is a [gmap string string] so that [{...prev, [name]: value}]
    is an [insert]. *)

From S2P Require Import Prelude JsString.
Import ListNotations.
Open Scope string_scope.

Module ContactForm.

Record form_state := mkForm {
  formData : gmap string string;
  isSubmitting : bool;
  submitMessage : string;
}.

(** [{ name: "", email: "", message: "" }] *)
Definition empty_formData : gmap string string :=
  <["name":=""]> (<["email":=""]> (<["message":=""]> ∅)).

Definition initial_form : form_state := mkForm empty_formData false "".

(** [setFormData((prev) => ({ ...prev, [name]: value }))] *)
Definition handleChange (name value : string) (s : form_state) : form_state :=
  mkForm (<[name:=value]> (formData s)) (isSubmitting s) (submitMessage s).

(** ** The handler's control flow *)

(** What an [await] can raise. *)
Inductive exn := PromiseRejected.

(** A computation on the form state that returns an [A] or throws. *)
Definition M (A : Type) : Type := form_state -> (A + exn) * form_state.

Definition ret {A} (a : A) : M A := fun s => (inl a, s).
Definition bind {A B} (m : M A) (k : A -> M B) : M B :=
  fun s => match m s with
           | (inl a, s') => k a s'
           | (inr e, s') => (inr e, s')
           end.
Definition throw {A} (e : exn) : M A := fun s => (inr e, s).

(** [try { body } catch (error) { handler }] *)
Definition try_catch {A} (body : M A) (handler : exn -> M A) : M A :=
  fun s => match body s with
           | (inr e, s') => handler e s'
           | r => r
           end.

(** [try { body } finally { fin }]: [fin] runs on both paths, and the
    body's result (or exception) is kept when [fin] completes. *)
Definition try_finally {A} (body : M A) (fin : M unit) : M A :=
  fun s => let '(r, s') := body s in
           match fin s' with
           | (inl _, s'') => (r, s'')
           | (inr e, s'') => (inr e, s'')
           end.

Declare Scope form_scope.
Delimit Scope form_scope with form.
Notation "x <- m ;; k" := (bind m (fun x => k))
  (at level 100, m at next level, right associativity) : form_scope.
Notation "m ;; k" := (bind m (fun _ => k))
  (at level 100, right associativity) : form_scope.
Open Scope form_scope.

Definition setFormData (d : gmap string string) : M unit :=
  fun s => (inl tt, mkForm d (isSubmitting s) (submitMessage s)).
Definition setIsSubmitting (b : bool) : M unit :=
  fun s => (inl tt, mkForm (formData s) b (submitMessage s)).
Definition setSubmitMessage (m : string) : M unit :=
  fun s => (inl tt, mkForm (formData s) (isSubmitting s) m).

(** How a promise settles. *)
Inductive outcome := Resolved | Rejected.

(** [await p]: resumes on resolution, throws on rejection. *)
Definition await (o : outcome) : M unit :=
  match o with
  | Resolved => ret tt
  | Rejected => throw PromiseRejected
  end.

(** [new Promise((resolve) => setTimeout(resolve, 1000))]: the executor
    only ever calls [resolve], after [delay_ms]. *)
Definition delay_ms : Z := 1000.
Definition delay_outcome : outcome := Resolved.

Definition thank_you : string := "Thank you for your message! I'll get back to you soon.".
Definition went_wrong : string := "Something went wrong. Please try again later.".

(** The synchronous part: [e.preventDefault(); setIsSubmitting(true);]
    (the prevented default submission has no effect on the state). *)
Definition handleSubmit_start : M unit := setIsSubmitting true.

(** The continuation of [await], run when the promise settles with [o]. *)
Definition handleSubmit_resume (o : outcome) : M unit :=
  try_finally
    (try_catch
       (await o;;
        setSubmitMessage thank_you;;
        setFormData empty_formData)
       (fun _ => setSubmitMessage went_wrong))
    (setIsSubmitting false).

(** The state a computation leaves. *)
Definition exec {A} (m : M A) (s : form_state) : form_state := snd (m s).

(** [submitMessage.includes("Thank you") ? "text-green-400" : "text-red-400"],
    shown only when [submitMessage] is not empty (page.tsx:834-846). *)
Inductive message_color := Green | Red.

Definition message_view (submitMessage : string) : option message_color :=
  if String.eqb submitMessage "" then None
  else Some (if JsString.includes submitMessage "Thank you" then Green else Red).

(** ** Properties *)

(** The names of the three inputs (page.tsx:750, 769, 787). *)
Definition field_names : gset string := {["name"; "email"; "message"]}.

Lemma dom_empty_formData : dom empty_formData = field_names.
Proof. unfold empty_formData, field_names. rewrite !dom_insert_L, dom_empty_L. set_solver. Qed.

(** C19: [handleChange] writes the named field and leaves the others;
    on one of the three inputs it keeps the set of keys. *)
Theorem handleChange_spec name value s :
  formData (handleChange name value s) !! name = Some value /\
  (forall other, other <> name ->
     formData (handleChange name value s) !! other = formData s !! other) /\
  (name ∈ dom (formData s) -> dom (formData (handleChange name value s)) = dom (formData s)) /\
  isSubmitting (handleChange name value s) = isSubmitting s /\
  submitMessage (handleChange name value s) = submitMessage s.
Proof.
  unfold handleChange; simpl. split; [apply lookup_insert_eq|].
  split; [intros; by apply lookup_insert_ne|].
  split; [|done]. intros Hin. rewrite dom_insert_L. set_solver.
Qed.

(** C8: the continuation of [handleSubmit] on each way the promise can
    settle: on resolution it shows the thank-you message and clears the
    three fields; on rejection the [catch] shows the failure message and
    keeps the fields; on both, [finally] clears [isSubmitting] and no
    exception escapes. *)
Theorem handleSubmit_resume_spec o s :
  handleSubmit_resume o s =
  (inl tt, match o with
           | Resolved => mkForm empty_formData false thank_you
           | Rejected => mkForm (formData s) false went_wrong
           end).
Proof.
by destruct o.
Qed.

(** C20: the message is shown in green exactly when it is non-empty and
    contains "Thank you"; every other non-empty message is red. *)
Theorem message_view_green m :
  message_view m = Some Green <->
  m <> "" /\ exists before after, m = before ++ "Thank you" ++ after.
Proof.
  unfold message_view. rewrite <-JsString.includes_iff.
  destruct (String.eqb_spec m "") as [->|Hne]; [split; [done|by intros [? _]]|].
  destruct (JsString.includes m "Thank you"); split; try done; by intros [_ ?].
Qed.

Example message_views :
  message_view thank_you = Some Green /\ message_view went_wrong = Some Red /\
  message_view "" = None.
Proof. vm_compute. auto. Qed.

Lemma handleChange_spec_witness :
  formData (handleChange "email" "ada@example.com" initial_form) !! "email" = Some "ada@example.com" /\
  ("name" <> "email" ->
     formData (handleChange "email" "ada@example.com" initial_form) !! "name" = formData initial_form !! "name") /\
  ("email" ∈ dom (formData initial_form) ->
     dom (formData (handleChange "email" "ada@example.com" initial_form)) = dom (formData initial_form)).
Proof.
  destruct (handleChange_spec "email" "ada@example.com" initial_form) as (H1 & H2 & H3 & _).
  split; [exact H1|]. split; [apply H2|exact H3].
Defined.

End ContactForm.
