(* ===== verification/Listeners.v ===== *)
(** * Window listeners registered by the page's [useEffect]

    The effect of page.tsx:27-68 (dependencies [[]]) registers three
    listeners on [window] ([scroll], [mousemove], [resize]) and returns a
    cleanup that removes them.  Each run of the effect creates fresh
    closures, so a listener is identified by its event type and by the
    run that created it.  The registry is the window's list of listeners,
    in registration order, as the DOM keeps it. *)

From S2P Require Import Prelude.
Import ListNotations.

Module Listeners.

Inductive listener_type := Scroll | MouseMove | Resize.

#[export] Instance listener_type_eq_dec : EqDecision listener_type.
Proof. solve_decision. Defined.

(** A listener: its event type and the effect run whose closure it is. *)
Definition listener : Type := listener_type * nat.

(** [window.addEventListener(type, fn)]: a pair already registered is not
    added twice; a new one goes to the end. *)
Definition addEventListener (t : listener_type) (run : nat) (r : list listener) : list listener :=
  if bool_decide ((t, run) ∈ r) then r else r ++ [(t, run)].

(** [window.removeEventListener(type, fn)]: drops the matching entry. *)
Fixpoint removeEventListener (t : listener_type) (run : nat) (r : list listener) : list listener :=
  match r with
  | [] => []
  | e :: rest => if bool_decide (e = (t, run)) then rest else e :: removeEventListener t run rest
  end.

(** The effect body of run [run] (page.tsx:59-61). *)
Definition effect_setup (run : nat) (r : list listener) : list listener :=
  addEventListener Resize run (addEventListener MouseMove run (addEventListener Scroll run r)).

(** The cleanup it returns (page.tsx:63-67). *)
Definition effect_cleanup (run : nat) (r : list listener) : list listener :=
  removeEventListener Resize run (removeEventListener MouseMove run (removeEventListener Scroll run r)).

(** The listeners an event of type [t] reaches, in registration order. *)
Definition listeners_of (t : listener_type) (r : list listener) : list listener :=
  filter (fun e => fst e = t) r.

(** No listener of run [run] is registered. *)
Definition fresh_run (run : nat) (r : list listener) : Prop :=
  forall t, (t, run) ∉ r.

(** ** Properties *)

Lemma add_fresh t run r : (t, run) ∉ r -> addEventListener t run r = r ++ [(t, run)].
Proof. intros Hn. unfold addEventListener. by rewrite bool_decide_false. Qed.

Lemma setup_fresh run r :
  fresh_run run r -> effect_setup run r = r ++ [(Scroll, run); (MouseMove, run); (Resize, run)].
Proof.
  intros Hf. unfold effect_setup.
  rewrite (add_fresh Scroll) by apply Hf.
  rewrite (add_fresh MouseMove) by (pose proof (Hf MouseMove); set_solver).
  rewrite (add_fresh Resize) by (pose proof (Hf Resize); set_solver).
  by rewrite <-!app_assoc.
Qed.

Lemma remove_not_in t run r : (t, run) ∉ r -> removeEventListener t run r = r.
Proof.
  induction r as [|e r IH]; simpl; [done|]. intros Hn.
  rewrite bool_decide_false by set_solver. f_equal. apply IH. set_solver.
Qed.

Lemma remove_app_first t run r rest :
  (t, run) ∉ r -> removeEventListener t run (r ++ (t, run) :: rest) = r ++ rest.
Proof.
  induction r as [|e r IH]; simpl; intros Hn.
  - by rewrite bool_decide_true.
  - rewrite bool_decide_false by set_solver. f_equal. apply IH. set_solver.
Qed.

(** C21: the cleanup removes exactly what the setup added: mounting and
    unmounting the page leaves the window's listeners as they were. *)
Theorem cleanup_after_setup run r :
  fresh_run run r -> effect_cleanup run (effect_setup run r) = r.
Proof.
  intros Hf. rewrite setup_fresh by done. unfold effect_cleanup.
  pose proof (Hf Scroll). pose proof (Hf MouseMove). pose proof (Hf Resize).
  rewrite !remove_app_first by done. by rewrite app_nil_r.
Qed.

(** C22: after a setup on a window with no listener of that run, each
    event type reaches exactly one more listener: the one of that run. *)
Theorem setup_one_per_type run r t :
  fresh_run run r ->
  listeners_of t (effect_setup run r) = listeners_of t r ++ [(t, run)].
Proof.
  intros Hf. rewrite setup_fresh by done. unfold listeners_of.
  rewrite filter_app. f_equal.
  destruct t; rewrite !filter_cons; repeat case_decide; simplify_eq; done.
Qed.

Lemma fresh_run_1 : fresh_run 1 (effect_setup 0 []).
Proof. intros []; vm_compute; set_solver. Qed.

Lemma cleanup_after_setup_witness :
  fresh_run 1 (effect_setup 0 []) /\
  effect_cleanup 1 (effect_setup 1 (effect_setup 0 [])) = effect_setup 0 [].
Proof. split; [apply fresh_run_1|]. apply cleanup_after_setup, fresh_run_1. Defined.

Lemma setup_one_per_type_witness :
  fresh_run 1 (effect_setup 0 []) /\
  listeners_of Scroll (effect_setup 1 (effect_setup 0 [])) =
    listeners_of Scroll (effect_setup 0 []) ++ [(Scroll, 1%nat)].
Proof. split; [apply fresh_run_1|]. apply setup_one_per_type, fresh_run_1. Defined.

End Listeners.
