(* ===== verification/Page.v ===== *)
(** * The page: its state, its events and their handlers

    [Portfolio] (page.tsx:14-874) owns the React state of the four
    components and the browser owns the window: scroll offset, width,
    layout, listeners and the pending timers of [handleSubmit].  An event
    is what the page offers the user or the browser at a moment (a button
    that is rendered and enabled, an input, a window event); [dispatch]
    runs the handlers the code attaches to it.  Window events reach the
    handlers through the listener registry of [Listeners]. *)

From S2P Require Import Prelude JsString ScrollTracker Navigation ContactForm Listeners.
Import ListNotations.
Open Scope Z_scope.
Open Scope page_scope.

Module Page.

Import ScrollTracker Navigation ContactForm Listeners.

Record window := mkWindow {
  scrollY : Z;                  (** [window.scrollY] *)
  innerWidth : Z;               (** [window.innerWidth] *)
  layout : document;                 (** the document's geometry *)
  maxScrollY : Z;               (** the largest reachable [scrollY] *)
  registry : list listener;     (** [window]'s listeners *)
  timers : nat;                 (** pending [setTimeout(resolve, 1000)] of [handleSubmit] *)
  scroll_request : option Z;    (** where the last smooth scroll comes to rest *)
}.

Record page := mkPage {
  form : form_state;
  nav : nav_state;
  cursorPosition : Z * Z;       (** [useState({ x: 0, y: 0 })] *)
  isHoveringLink : bool;        (** [useState(false)] *)
  win : window;
}.

Definition set_form (p : page) (f : form_state) : page :=
  mkPage f (nav p) (cursorPosition p) (isHoveringLink p) (win p).
Definition set_nav (p : page) (n : nav_state) : page :=
  mkPage (form p) n (cursorPosition p) (isHoveringLink p) (win p).
Definition set_cursor (p : page) (c : Z * Z) : page :=
  mkPage (form p) (nav p) c (isHoveringLink p) (win p).
Definition set_hovering (p : page) (b : bool) : page :=
  mkPage (form p) (nav p) (cursorPosition p) b (win p).
Definition set_win (p : page) (w : window) : page :=
  mkPage (form p) (nav p) (cursorPosition p) (isHoveringLink p) w.

Definition with_scroll (w : window) (y : Z) : window :=
  mkWindow y (innerWidth w) (layout w) (maxScrollY w) (registry w) (timers w) (scroll_request w).
Definition with_viewport (w : window) (width : Z) (l : document) (maxY : Z) : window :=
  mkWindow (scrollY w) width l maxY (registry w) (timers w) (scroll_request w).
Definition with_registry (w : window) (r : list listener) : window :=
  mkWindow (scrollY w) (innerWidth w) (layout w) (maxScrollY w) r (timers w) (scroll_request w).
Definition with_timers (w : window) (n : nat) : window :=
  mkWindow (scrollY w) (innerWidth w) (layout w) (maxScrollY w) (registry w) n (scroll_request w).
Definition with_request (w : window) (r : option Z) : window :=
  mkWindow (scrollY w) (innerWidth w) (layout w) (maxScrollY w) (registry w) (timers w) r.

Inductive event :=
  | WindowScroll (y : Z)                        (** the window scrolls to [y] *)
  | WindowResize (width : Z) (l : document) (maxY : Z) (** the viewport changes size *)
  | WindowMouseMove (clientX clientY : Z)
  | LinkEnter                                   (** [onMouseEnter] of a link or button *)
  | LinkLeave                                   (** [onMouseLeave] of a link or button *)
  | NavClick (item : string)                    (** a button calling [scrollToSection(item)] *)
  | MenuButtonClick                             (** the button calling [toggleMenu] *)
  | FieldInput (name value : string)            (** [onChange={handleChange}] of an input *)
  | FormSubmit                                  (** the form's submission *)
  | TimerFire.                                  (** the oldest pending timer fires *)

(** The value an input shows: [value={formData.name}] and the like. *)
Definition field_value (d : gmap string string) (k : string) : string :=
  default "" (d !! k).

Section Page.

Context `{!ActiveTracker}.

(** The browser's check of [type="email"] (the HTML standard's "valid
    e-mail address"), which the code relies on and does not implement. *)
Variable email_ok : string -> bool.

(** The handler each listener runs. *)
Definition handleScroll_listener (p : page) : page :=
  set_nav p (mkNav (track (layout (win p)) (scrollY (win p)) (activeSection (nav p)))
                   (isMenuOpen (nav p))).
Definition handleResize_listener (p : page) : page :=
  set_nav p (handleResize (innerWidth (win p)) (nav p)).
Definition handleMouseMove_listener (clientX clientY : Z) (p : page) : page :=
  set_cursor p (clientX, clientY).

(** A window event runs every listener of its type, in registration order. *)
Definition deliver (t : listener_type) (h : page -> page) (p : page) : page :=
  fold_left (fun q _ => h q) (listeners_of t (registry (win p))) p.

(** The buttons that call [scrollToSection(item)]: the desktop list
    (shown from [md] up), the mobile list (shown while the menu is open
    below [md]) and the two buttons of the home section ("contact",
    "services", page.tsx:347, 356). *)
Definition nav_clickable (p : page) (item : string) : bool :=
  bool_decide (item ∈ nav_items) &&
  (md (innerWidth (win p)) || mobile_menu_shown (innerWidth (win p)) (nav p) ||
   bool_decide (item ∈ ["contact"; "services"])).

(** The browser submits the form only when the submit button is enabled
    ([disabled={isSubmitting}]) and the three [required] inputs pass
    constraint validation. *)
Definition form_submittable (f : form_state) : bool :=
  negb (isSubmitting f) &&
  negb (field_value (formData f) "name" === "") &&
  negb (field_value (formData f) "email" === "") &&
  email_ok (field_value (formData f) "email") &&
  negb (field_value (formData f) "message" === "").

Definition dispatch (e : event) (p : page) : page :=
  match e with
  | WindowScroll y =>
      deliver Scroll handleScroll_listener (set_win p (with_scroll (win p) y))
  | WindowResize width l maxY =>
      deliver Resize handleResize_listener (set_win p (with_viewport (win p) width l maxY))
  | WindowMouseMove x y =>
      deliver MouseMove (handleMouseMove_listener x y) p
  | LinkEnter => set_hovering p true
  | LinkLeave => set_hovering p false
  | NavClick item =>
      if nav_clickable p item then
        let '(n, eff) := scrollToSection (layout (win p)) item (nav p) in
        let req := match eff with
                   | Some (ScrollIntoView element) => Some (scroll_rest (maxScrollY (win p)) element)
                   | None => None
                   end in
        set_win (set_nav p n) (with_request (win p) req)
      else p
  | MenuButtonClick =>
      if md (innerWidth (win p)) then p else set_nav p (toggleMenu (nav p))
  | FieldInput name value =>
      if bool_decide (name ∈ field_names) then set_form p (handleChange name value (form p)) else p
  | FormSubmit =>
      if form_submittable (form p) then
        set_win (set_form p (exec handleSubmit_start (form p)))
                (with_timers (win p) (S (timers (win p))))
      else p
  | TimerFire =>
      match timers (win p) with
      | O => p
      | S n => set_win (set_form p (exec (handleSubmit_resume delay_outcome) (form p)))
                       (with_timers (win p) n)
      end
  end.

(** The page as first rendered, before its effect runs. *)
Definition initial_page (y width : Z) (l : document) (maxY : Z) : page :=
  mkPage initial_form initial_nav (0, 0) false (mkWindow y width l maxY [] 0 None).

(** The effect runs once after the first render (run 0). *)
Definition mount (p : page) : page :=
  set_win p (with_registry (win p) (effect_setup 0 (registry (win p)))).

Inductive reachable : page -> Prop :=
  | reach_init y width l maxY : reachable (mount (initial_page y width l maxY))
  | reach_step e p : reachable p -> reachable (dispatch e p).

(** ** Invariants of the reachable states *)

Lemma deliver_inv (P : page -> Prop) t h p :
  P p -> (forall q, P q -> P (h q)) -> P (deliver t h p).
Proof. intros Hp Hh. unfold deliver. apply fold_left_inv; auto. Qed.

(** The invariant of a property [P]: it holds initially and each event keeps it. *)
Lemma reachable_ind_inv (P : page -> Prop) :
  (forall y width l maxY, P (mount (initial_page y width l maxY))) ->
  (forall e p, reachable p -> P p -> P (dispatch e p)) ->
  forall p, reachable p -> P p.
Proof. intros Hi Hs p Hr. induction Hr; auto. Qed.

Lemma nav_items_sections : nav_items = sections.
Proof. reflexivity. Qed.

Lemma nav_clickable_item p item : nav_clickable p item = true -> In item sections.
Proof.
  unfold nav_clickable. intros Hc. apply andb_prop in Hc as [Hc _].
  apply bool_decide_eq_true in Hc. rewrite <-nav_items_sections. by apply list_elem_of_In.
Qed.

(** The active section is one of the four named sections. *)
Definition active_ok (p : page) : Prop := In (activeSection (nav p)) sections.

Lemma active_ok_reachable p : reachable p -> active_ok p.
Proof.
  apply reachable_ind_inv; [intros; simpl; unfold active_ok; simpl; tauto|].
  intros e q _ Hq. unfold active_ok in *.
  destruct e; simpl; try done.
  - apply deliver_inv; [done|]. intros r Hr. unfold handleScroll_listener; simpl.
    destruct (track_keeps_or_names (layout (win r)) (scrollY (win r)) (activeSection (nav r)))
      as [->|Hin]; done.
  - apply deliver_inv; [done|]. intros r Hr. unfold handleResize_listener, handleResize; simpl.
    by case_match.
  - by apply deliver_inv.
  - destruct (nav_clickable q item) eqn:E; [|done].
    apply nav_clickable_item in E. unfold scrollToSection. by case_match.
  - by case_match.
  - by case_match.
  - by case_match.
  - by case_match.
Qed.

(** C1: in every reachable state exactly one of the four named sections
    is active: [activeSection] is always one of "home", "about",
    "services", "contact" (a string that no handler can leave). *)
Theorem active_section_invariant p : reachable p -> active_ok p.
Proof. exact (active_ok_reachable p). Qed.

Definition window_event (e : event) : bool :=
  match e with WindowScroll _ | WindowResize _ _ _ | WindowMouseMove _ _ => true | _ => false end.

(** Window events touch neither the form nor the registry nor the timers. *)
Definition form_win (p : page) : form_state * list listener * nat :=
  (form p, registry (win p), timers (win p)).

Lemma deliver_form_win t h p :
  (forall q, form_win (h q) = form_win q) -> form_win (deliver t h p) = form_win p.
Proof.
  intros Hh. apply (deliver_inv (fun q => form_win q = form_win p)); [done|].
  intros q <-. apply Hh.
Qed.

Lemma window_event_form_win e p :
  window_event e = true -> form_win (dispatch e p) = form_win p.
Proof. destruct e; try done; intros _; simpl; by rewrite deliver_form_win. Qed.

(** Invariants of [form_win] pass through window events. *)
Lemma window_event_inv (P : page -> Prop) e p :
  (forall q, form_win q = form_win p -> P q) -> window_event e = true -> P (dispatch e p).
Proof. intros HP He. apply HP. by apply window_event_form_win. Qed.

(** Each submission in flight has its pending timer. *)
Definition submit_ok (p : page) : Prop :=
  (timers (win p) = 0%nat /\ isSubmitting (form p) = false) \/
  (timers (win p) = 1%nat /\ isSubmitting (form p) = true).

Lemma submittable_idle f : form_submittable f = true -> isSubmitting f = false.
Proof. unfold form_submittable. intros Hs. bool_props. by destruct (isSubmitting f). Qed.

Lemma submit_ok_reachable p : reachable p -> submit_ok p.
Proof.
  apply reachable_ind_inv; [intros; by left|].
  intros e q _ Hq. destruct (window_event e) eqn:W.
  { apply (window_event_inv submit_ok); [|done]. intros r [= Hf Hr Ht].
    unfold submit_ok. by rewrite Hf, Ht. }
  unfold submit_ok in *. destruct e; simpl; try done.
  - by case_match.
  - by case_match.
  - by case_match.
  - destruct (form_submittable (form q)) eqn:E; simpl; [|done].
    apply submittable_idle in E. right. simpl. split; [|reflexivity].
    destruct Hq as [[-> _]|[_ Hs]]; [done|congruence].
  - destruct (timers (win q)) as [|n] eqn:Et; simpl; [by rewrite Et|]. left.
    split; [|done]. destruct Hq as [[? _]|[? _]]; lia.
Qed.

(** C2: at most one submission is in flight, and [isSubmitting] is set
    exactly while its timer is pending: the disabled submit button keeps
    a second submission from starting before the first completes. *)
Theorem submit_invariant p : reachable p -> submit_ok p.
Proof. exact (submit_ok_reachable p). Qed.

(** The form object keeps exactly the keys of the three inputs. *)
Definition form_keys_ok (p : page) : Prop := dom (formData (form p)) = field_names.

Lemma form_keys_reachable p : reachable p -> form_keys_ok p.
Proof.
  apply reachable_ind_inv; [intros; apply dom_empty_formData|].
  intros e q _ Hq. destruct (window_event e) eqn:W.
  { apply (window_event_inv form_keys_ok); [|done]. intros r [= Hf Hr Ht].
    unfold form_keys_ok. by rewrite Hf. }
  unfold form_keys_ok in *. destruct e; simpl; try done.
  - by case_match.
  - by case_match.
  - destruct (bool_decide (name ∈ field_names)) eqn:E; [|done].
    apply bool_decide_eq_true in E. simpl.
    rewrite dom_insert_L, Hq. set_solver.
  - by case_match.
  - case_match; [done|]. apply dom_empty_formData.
Qed.

(** C7: [formData] always has exactly the keys "name", "email" and
    "message": inputs only write their own [name], and a completed
    submission restores the initial object. *)
Theorem form_keys_invariant p : reachable p -> form_keys_ok p.
Proof. exact (form_keys_reachable p). Qed.

(** The listeners of the effect's single run stay registered. *)
Definition registry_ok (p : page) : Prop := registry (win p) = effect_setup 0 [].

Lemma registry_invariant p : reachable p -> registry_ok p.
Proof.
  apply reachable_ind_inv; [intros; reflexivity|].
  intros e q _ Hq. destruct (window_event e) eqn:W.
  { apply (window_event_inv registry_ok); [|done]. intros r [= Hf Hr Ht].
    unfold registry_ok. by rewrite Hr. }
  unfold registry_ok in *. destruct e; simpl; try done; repeat case_match; done.
Qed.

Lemma deliver_once t h p :
  registry_ok p -> deliver t h p = h p.
Proof. unfold registry_ok, deliver. intros ->. by destruct t. Qed.

(** C9: on the page, a scroll event runs [handleScroll] once, on the new
    offset and the current layout; a resize wider than 768 pixels closes
    the menu; a navigation click sets the section at once and closes the
    menu. *)
Theorem window_handlers p :
  reachable p ->
  (forall y, nav (dispatch (WindowScroll y) p) =
             mkNav (track (layout (win p)) y (activeSection (nav p))) (isMenuOpen (nav p))) /\
  (forall width l maxY, 768 < width ->
     nav (dispatch (WindowResize width l maxY) p) = mkNav (activeSection (nav p)) false) /\
  (forall item, nav_clickable p item = true -> nav (dispatch (NavClick item) p) = mkNav item false).
Proof.
  intros Hr. pose proof (registry_invariant p Hr) as Hreg.
  split; [|split].
  - intros y. simpl. by rewrite deliver_once.
  - intros width l maxY Hw. simpl. rewrite deliver_once by done. simpl.
    by apply (proj1 (handleResize_cases width (nav p))).
  - intros item Hc. simpl. rewrite Hc. unfold scrollToSection. by case_match.
Qed.

(** The status line only ever holds the empty string or the thank-you message. *)
Definition message_ok (p : page) : Prop :=
  submitMessage (form p) = "" \/ submitMessage (form p) = thank_you.

Lemma message_ok_reachable p : reachable p -> message_ok p.
Proof.
  apply reachable_ind_inv; [intros; by left|].
  intros e q _ Hq. destruct (window_event e) eqn:W.
  { apply (window_event_inv message_ok); [|done]. intros r [= Hf Hr Ht].
    unfold message_ok. by rewrite Hf. }
  unfold message_ok in *. destruct e; simpl; try done; repeat case_match; try done.
  by right.
Qed.

(** C16: the [catch] branch of [handleSubmit] is dead code: in every
    reachable state the status line is empty or the thank-you message,
    never the failure message. *)
Theorem message_invariant p : reachable p -> message_ok p.
Proof. exact (message_ok_reachable p). Qed.

(** C18: below the [md] breakpoint, two clicks on the menu button give
    back the same page; from [md] up the button is hidden and a click
    changes nothing. *)
Theorem menu_button_twice p :
  (md (innerWidth (win p)) = false ->
   dispatch MenuButtonClick (dispatch MenuButtonClick p) = p) /\
  (md (innerWidth (win p)) = true -> dispatch MenuButtonClick p = p).
Proof.
  split; intros Hmd; simpl; rewrite Hmd; [|done].
  simpl. rewrite Hmd. unfold set_nav. simpl. rewrite toggleMenu_involutive.
  by destruct p.
Qed.

(** A run of scroll events on a page whose listeners are in place: the
    tracker is applied to each offset in turn, on the same layout. *)
Lemma run_scrolls ys p :
  registry_ok p ->
  nav (fold_left (fun q y => dispatch (WindowScroll y) q) ys p) =
    mkNav (fold_left (fun a y => track (layout (win p)) y a) ys (activeSection (nav p)))
          (isMenuOpen (nav p)) /\
  layout (win (fold_left (fun q y => dispatch (WindowScroll y) q) ys p)) = layout (win p) /\
  scrollY (win (fold_left (fun q y => dispatch (WindowScroll y) q) ys p)) = List.last ys (scrollY (win p)).
Proof.
  revert p. induction ys as [|y ys IH]; intros p Hreg; cbn [fold_left]; [by destruct (nav p)|].
  assert (dispatch (WindowScroll y) p = handleScroll_listener (set_win p (with_scroll (win p) y)))
    as -> by (simpl; by rewrite deliver_once).
  destruct (IH (handleScroll_listener (set_win p (with_scroll (win p) y)))) as (Hn & Hl & Hy);
    [done|].
  rewrite Hn, Hl, Hy, last_cons_default. done.
Qed.

(** ** A submission from start to end *)

(** A submission is in flight: its timer is the only one pending. *)
Definition in_flight (p : page) : Prop :=
  timers (win p) = 1%nat /\ isSubmitting (form p) = true.

Lemma submittable_blocked f : isSubmitting f = true -> form_submittable f = false.
Proof. unfold form_submittable. intros ->. done. Qed.

(** Every event but the timer keeps a submission in flight. *)
Lemma in_flight_step e p : e <> TimerFire -> in_flight p -> in_flight (dispatch e p).
Proof.
  intros Hne Hp. destruct (window_event e) eqn:W.
  { apply (window_event_inv in_flight); [|done]. intros r [= Hf Hr Ht].
    unfold in_flight in *. by rewrite Hf, Ht. }
  unfold in_flight in *. destruct Hp as [Ht Hs].
  destruct e; simpl; try done; try (by case_match).
  by rewrite submittable_blocked.
Qed.

Definition run (es : list event) (p : page) : page :=
  fold_left (fun q e => dispatch e q) es p.

Lemma reachable_run es p : reachable p -> reachable (run es p).
Proof. revert p. induction es as [|e es IH]; intros p Hp; simpl; [done|]. apply IH. by constructor. Qed.

Lemma in_flight_run es p :
  Forall (fun e => e <> TimerFire) es -> in_flight p -> in_flight (run es p).
Proof.
  intros Hes. revert p. induction Hes as [|e es He Hes IH]; intros p Hp; simpl; [done|].
  apply IH. by apply in_flight_step.
Qed.

Lemma submit_starts p :
  reachable p -> form_submittable (form p) = true -> in_flight (dispatch FormSubmit p).
Proof.
  intros Hr Hs. simpl. rewrite Hs. split; [|reflexivity]. simpl.
  destruct (submit_ok_reachable p Hr) as [[-> _]|[_ Hi]]; [done|].
  apply submittable_idle in Hs. congruence.
Qed.

Lemma submission_completes_aux p es :
  reachable p -> form_submittable (form p) = true ->
  Forall (fun e => e <> TimerFire) es ->
  let q := dispatch TimerFire (run es (dispatch FormSubmit p)) in
  isSubmitting (form q) = false /\ submitMessage (form q) = thank_you /\
  formData (form q) = empty_formData /\ timers (win q) = 0%nat.
Proof.
  intros Hr Hs Hes. pose proof (in_flight_run es _ Hes (submit_starts p Hr Hs)) as [Ht _].
  revert Ht. generalize (run es (dispatch FormSubmit p)). intros r Ht.
  simpl. rewrite Ht. done.
Qed.

(** C3: a submission the browser accepts completes at the next timer
    event, whatever other events happen in between: [isSubmitting] is
    cleared, the thank-you message is shown, the three fields hold empty
    strings and no timer is left pending. *)
Theorem submission_completes p es :
  reachable p -> form_submittable (form p) = true ->
  Forall (fun e => e <> TimerFire) es ->
  let q := dispatch TimerFire (run es (dispatch FormSubmit p)) in
  isSubmitting (form q) = false /\ submitMessage (form q) = thank_you /\
  formData (form q) = empty_formData /\ timers (win q) = 0%nat.
Proof.
  exact (submission_completes_aux p es).
Qed.

(** C11: the inputs stay enabled while a submission is in flight, and
    what is typed then is lost: the completion clears the fields it did
    not submit. *)
Theorem input_lost_during_submission p value :
  reachable p -> form_submittable (form p) = true ->
  let typed := dispatch (FieldInput "message" value) (dispatch FormSubmit p) in
  field_value (formData (form typed)) "message" = value /\
  field_value (formData (form (dispatch TimerFire typed))) "message" = "".
Proof.
  intros Hr Hs typed. split.
  - unfold typed. cbn [dispatch]. rewrite Hs. cbn [form set_form set_win].
    rewrite bool_decide_true by (unfold field_names; set_solver).
    unfold field_value. cbn [form set_form handleChange formData]. by rewrite lookup_insert_eq.
  - destruct (submission_completes_aux p [FieldInput "message" value] Hr Hs) as (_ & _ & Hd & _).
    { by repeat constructor. }
    unfold typed. simpl in Hd |- *. by rewrite Hd.
Qed.

End Page.

#[export] Hint Constructors reachable : page.
#[export] Hint Resolve reachable_run : page.

(** ** A concrete page *)

(** A layout of the seven flow blocks and the page after its effect ran,
    on a 1280-pixel wide window. *)
Definition demo_layout : document := flow_doc (page_blocks 900 800 700 600 900 800 100).
Definition demo_start : page := mount (initial_page 0 1280 demo_layout 3000).

(** A browser that accepts every address (the witnesses use addresses of
    the usual form). *)
Definition accept_all (email : string) : bool := true.

Definition demo_filled : page :=
  run accept_all [FieldInput "name" "Ada"; FieldInput "email" "ada@example.com";
                  FieldInput "message" "Hello"] demo_start.

Lemma demo_start_reachable : reachable accept_all demo_start.
Proof. unfold demo_start. eauto with page. Qed.

Lemma demo_filled_reachable : reachable accept_all demo_filled.
Proof. unfold demo_filled, demo_start. eauto with page. Qed.

Lemma active_section_invariant_witness :
  reachable accept_all demo_filled /\ active_ok demo_filled.
Proof.
  split; [apply demo_filled_reachable|].
  apply (active_section_invariant accept_all demo_filled), demo_filled_reachable.
Defined.

Lemma submit_invariant_witness :
  reachable accept_all (dispatch accept_all FormSubmit demo_filled) /\
  submit_ok (dispatch accept_all FormSubmit demo_filled).
Proof.
  assert (Hr : reachable accept_all (dispatch accept_all FormSubmit demo_filled))
    by (constructor; apply demo_filled_reachable).
  split; [exact Hr|]. apply (submit_invariant accept_all _ Hr).
Defined.

Lemma submission_completes_witness :
  reachable accept_all demo_filled /\
  form_submittable accept_all (form demo_filled) = true /\
  Forall (fun e => e <> TimerFire) [WindowScroll 1900; LinkEnter] /\
  let q := dispatch accept_all TimerFire
             (run accept_all [WindowScroll 1900; LinkEnter] (dispatch accept_all FormSubmit demo_filled)) in
  isSubmitting (form q) = false /\ submitMessage (form q) = thank_you /\
  formData (form q) = empty_formData /\ timers (win q) = 0%nat.
Proof.
  assert (Hs : form_submittable accept_all (form demo_filled) = true) by reflexivity.
  assert (Hes : Forall (fun e => e <> TimerFire) [WindowScroll 1900; LinkEnter]) by
    (repeat constructor; discriminate).
  split; [apply demo_filled_reachable|]. split; [exact Hs|]. split; [exact Hes|].
  apply (submission_completes accept_all demo_filled _ demo_filled_reachable Hs Hes).
Defined.

Lemma form_keys_invariant_witness :
  reachable accept_all demo_filled /\ form_keys_ok demo_filled.
Proof.
  split; [apply demo_filled_reachable|].
  apply (form_keys_invariant accept_all demo_filled), demo_filled_reachable.
Defined.

Lemma window_handlers_witness :
  reachable accept_all demo_start /\
  nav (dispatch accept_all (WindowScroll 1900) demo_start) = mkNav "services" false /\
  nav (dispatch accept_all (WindowResize 1024 demo_layout 3000) demo_start) = mkNav "home" false /\
  nav_clickable demo_start "contact" = true /\
  nav (dispatch accept_all (NavClick "contact") demo_start) = mkNav "contact" false.
Proof.
  destruct (window_handlers accept_all demo_start demo_start_reachable) as (Hs & Hr & Hc).
  split; [apply demo_start_reachable|]. split; [rewrite Hs; reflexivity|].
  split; [apply Hr; lia|]. split; [reflexivity|]. apply Hc. reflexivity.
Defined.

Lemma message_invariant_witness :
  reachable accept_all (dispatch accept_all TimerFire (dispatch accept_all FormSubmit demo_filled)) /\
  message_ok (dispatch accept_all TimerFire (dispatch accept_all FormSubmit demo_filled)).
Proof.
  assert (Hr : reachable accept_all (dispatch accept_all TimerFire (dispatch accept_all FormSubmit demo_filled)))
    by (do 2 constructor; apply demo_filled_reachable).
  split; [exact Hr|]. apply (message_invariant accept_all _ Hr).
Defined.

Lemma menu_button_twice_witness :
  md (innerWidth (win (set_win demo_start (with_viewport (win demo_start) 500 demo_layout 3000)))) = false /\
  dispatch accept_all MenuButtonClick
    (dispatch accept_all MenuButtonClick (set_win demo_start (with_viewport (win demo_start) 500 demo_layout 3000))) =
  set_win demo_start (with_viewport (win demo_start) 500 demo_layout 3000).
Proof.
  split; [reflexivity|].
  apply (proj1 (menu_button_twice accept_all (set_win demo_start (with_viewport (win demo_start) 500 demo_layout 3000)))).
  reflexivity.
Defined.

Lemma input_lost_during_submission_witness :
  reachable accept_all demo_filled /\ form_submittable accept_all (form demo_filled) = true /\
  let typed := dispatch accept_all (FieldInput "message" "P.S.") (dispatch accept_all FormSubmit demo_filled) in
  field_value (formData (form typed)) "message" = "P.S." /\
  field_value (formData (form (dispatch accept_all TimerFire typed))) "message" = "".
Proof.
  assert (Hs : form_submittable accept_all (form demo_filled) = true) by reflexivity.
  split; [apply demo_filled_reachable|]. split; [exact Hs|].
  apply (input_lost_during_submission accept_all demo_filled "P.S." demo_filled_reachable Hs).
Defined.

End Page.
