(* ===== verification/Status.v ===== *)
(** * The submission status against the spec's state machine

    The spec describes the form's [SubmissionStatus] as a state machine:
    Idle, then Submitting on submit, then Success or Failure, then Idle
    again on the next submit.  The page keeps no such variable: the
    status is a view of [isSubmitting] and [submitMessage].  This file
    states the machine, the abstraction [status_of] from the page's state,
    and proves that every event of the page is matched by the machine:
    a submission by its [submit] step (through [reset] when a previous
    submission had finished), the timer by its [settle] step, every other
    event by no step at all. *)

From S2P Require Import Prelude ScrollTracker Navigation ContactForm Listeners Page.
Import ListNotations.
Open Scope page_scope.

Module Status.

Import ContactForm Page.

Inductive status := Idle | Submitting | Success | Failure.

Inductive label := LSubmit | LSettle | LReset.

(** The spec's machine (spec.md, section 4.3). *)
Inductive spec_step : status -> label -> status -> Prop :=
  | sp_submit : spec_step Idle LSubmit Submitting
  | sp_success : spec_step Submitting LSettle Success
  | sp_failure : spec_step Submitting LSettle Failure
  | sp_reset_success : spec_step Success LReset Idle
  | sp_reset_failure : spec_step Failure LReset Idle.

(** The status a form state shows. *)
Definition status_of (f : form_state) : status :=
  if isSubmitting f then Submitting
  else if submitMessage f === thank_you then Success
  else if submitMessage f === went_wrong then Failure
  else Idle.

Arguments status_of : simpl never.

(** How an event of the page moves the spec's machine, given whether the
    page acted on it ([acc]): an event acted on takes the machine's step,
    any other event leaves the status where it was. *)
Inductive matched : bool -> event -> status -> status -> Prop :=
  | m_stutter e a : matched false e a a
  | m_settle a b : spec_step a LSettle b -> matched true TimerFire a b
  | m_submit a b : spec_step a LSubmit b -> matched true FormSubmit a b
  | m_reset_submit a b :
      spec_step a LReset Idle -> spec_step Idle LSubmit b -> matched true FormSubmit a b.

Section Refinement.
Context `{!ActiveTracker} (email_ok : string -> bool).

(** The events the page acts on as a submission step: a submission the
    form's guards let through, and a pending timer firing. *)
Definition accepted (e : event) (p : page) : bool :=
  match e with
  | FormSubmit => form_submittable email_ok (form p)
  | TimerFire => bool_decide (timers (win p) <> 0%nat)
  | _ => false
  end.

Lemma status_of_idle f :
  isSubmitting f = false -> submitMessage f = "" -> status_of f = Idle.
Proof. unfold status_of. intros -> ->. by vm_compute. Qed.

Lemma status_of_success f :
  isSubmitting f = false -> submitMessage f = thank_you -> status_of f = Success.
Proof. unfold status_of. intros -> ->. by vm_compute. Qed.

Lemma status_of_submitting f : isSubmitting f = true -> status_of f = Submitting.
Proof. unfold status_of. by intros ->. Qed.

(** A status other than Submitting can start a submission. *)
Lemma submit_matched a :
  a <> Submitting -> matched true FormSubmit a Submitting.
Proof.
  destruct a; intros Ha; try done.
  - apply m_submit. constructor.
  - apply m_reset_submit; constructor.
  - apply m_reset_submit; constructor.
Qed.

(** C23: the page refines the spec's submission machine: from every
    reachable state, a submission the form lets through moves the status
    by the machine's submit step (after its reset step when the last
    submission had finished), a pending timer by its settle step, and
    every other event, refused submissions included, leaves the status
    unchanged. *)
Theorem status_refines p e :
  reachable email_ok p ->
  matched (accepted e p) e (status_of (form p)) (status_of (form (dispatch email_ok e p))).
Proof.
  intros Hr. pose proof (submit_ok_reachable email_ok p Hr) as Hs.
  destruct (window_event e) eqn:W.
  { pose proof (window_event_form_win email_ok e p W) as Hw. unfold form_win in Hw.
    assert (form (dispatch email_ok e p) = form p) as -> by congruence.
    assert (accepted e p = false) as -> by (destruct e; done). apply m_stutter. }
  destruct e; try done; simpl; repeat case_match; try apply m_stutter;
    unfold set_win, set_form; cbn [form]; try by rewrite bool_decide_eq_false_2.
  all: try rewrite bool_decide_eq_true_2 by done.
  - (* FormSubmit *)
    rewrite (status_of_submitting (exec handleSubmit_start (form p))) by reflexivity.
    apply submit_matched. unfold status_of. rewrite (submittable_idle email_ok _ H0).
    by repeat case_match.
  - (* TimerFire *)
    destruct Hs as [[Ht _]|[_ Hi]]; [congruence|].
    rewrite (status_of_submitting (form p)) by done.
    rewrite (status_of_success (exec _ (form p))) by reflexivity.
    apply m_settle. constructor.
Qed.

End Refinement.

Lemma status_refines_witness :
  reachable accept_all demo_filled /\
  matched (accepted accept_all FormSubmit demo_filled) FormSubmit (status_of (form demo_filled))
    (status_of (form (dispatch accept_all FormSubmit demo_filled))).
Proof.
  split; [apply demo_filled_reachable|].
  apply (status_refines accept_all demo_filled FormSubmit), demo_filled_reachable.
Defined.

End Status.
