(* ===== verification/SmoothScroll.v ===== *)
(** * The smooth scroll that [scrollToSection] starts

    [element.scrollIntoView({ behavior: "smooth" })] (page.tsx:102) asks
    the browser to animate the scroll offset to the element's top (its
    resting point, [scroll_rest]).  The browser moves the offset frame by
    frame and fires a [scroll] event after each frame, each of which runs
    [handleScroll].  This file is an environment model, an assumption
    about the browser rather than a translation of page code: the frames
    move at a constant speed (pixels per frame) for at most [fuel]
    frames.  [frames_last] shows that enough frames end at the resting
    point; the theorem about the page is that a navigation click followed
    by these scroll events shows the clicked section as active. *)

From S2P Require Import Prelude ScrollTracker Navigation ContactForm Listeners Page.
Import ListNotations.
Open Scope Z_scope.

Module SmoothScroll.

Import ScrollTracker Navigation Page.

(** One frame moves the offset towards [target] by at most [speed]. *)
Definition frame (speed y target : Z) : Z :=
  if Z.abs (target - y) <=? speed then target
  else if y <? target then y + speed else y - speed.

(** The offsets of the frames, in order, until [target] or the fuel ends. *)
Fixpoint frames (fuel : nat) (speed y target : Z) : list Z :=
  match fuel with
  | O => []
  | S fuel' =>
      if y =? target then []
      else let y' := frame speed y target in y' :: frames fuel' speed y' target
  end.

(** ** Properties of the frames *)

Lemma frame_closer speed y target :
  0 < speed -> y <> target ->
  Z.abs (target - frame speed y target) = Z.max 0 (Z.abs (target - y) - speed).
Proof.
  intros Hs Hne. unfold frame.
  destruct (Z.abs (target - y) <=? speed) eqn:E; bool_props; [lia|].
  destruct (y <? target) eqn:E'; bool_props; lia.
Qed.

Lemma frames_last fuel speed y target :
  0 < speed -> Z.abs (target - y) <= Z.of_nat fuel * speed ->
  List.last (frames fuel speed y target) y = target.
Proof.
  revert y. induction fuel as [|fuel IH]; intros y Hs Hd; simpl.
  - lia.
  - destruct (Z.eqb_spec y target) as [->|Hne]; [done|].
    rewrite last_cons_default. apply IH; [done|].
    rewrite frame_closer by done. lia.
Qed.

(** C24: a navigation click, followed by the scroll events of the smooth
    scroll it starts, ends with the clicked section active, the menu
    closed and the window resting at the section's top, when the section
    lies in a stacked layout, is taller than the probe offset, its top is
    reachable, and the browser has enough frames. *)
Theorem nav_click_lands email_ok p item bs element speed fuel :
  reachable email_ok p -> nav_clickable p item = true ->
  layout (win p) = flow_doc bs -> nonneg_heights bs ->
  flow_doc bs item = Some element -> 200 < offsetHeight element ->
  0 <= offsetTop element <= maxScrollY (win p) ->
  0 < speed -> Z.abs (offsetTop element - scrollY (win p)) <= Z.of_nat fuel * speed ->
  let q := run email_ok (map WindowScroll (frames fuel speed (scrollY (win p)) (offsetTop element)))
                (dispatch email_ok (NavClick item) p) in
  nav q = mkNav item false /\ scrollY (win q) = offsetTop element /\
  scroll_request (win (dispatch email_ok (NavClick item) p)) = Some (offsetTop element).
Proof.
  intros Hr Hc Hl Hnn Hel Hh Htop Hs Hfuel q.
  assert (Hin : In item sections) by (eapply nav_clickable_item; eauto).
  pose proof (registry_invariant email_ok _ (reach_step _ (NavClick item) p Hr)) as Hreg.
  assert (Hn : nav (dispatch email_ok (NavClick item) p) = mkNav item false /\
               win (dispatch email_ok (NavClick item) p) =
                 with_request (win p) (Some (offsetTop element))).
  { simpl. rewrite Hc. unfold scrollToSection. rewrite Hl, Hel. simpl.
    by rewrite scroll_rest_reached by done. }
  destruct Hn as [Hn Hw].
  unfold q, run. rewrite fold_left_map_compose.
  destruct (run_scrolls email_ok (frames fuel speed (scrollY (win p)) (offsetTop element))
              (dispatch email_ok (NavClick item) p) Hreg) as (Hn' & _ & Hy).
  rewrite Hn', Hy, Hn, Hw. simpl. rewrite Hl, frames_last by done.
  split; [|done]. f_equal.
  apply (fold_left_last_const _ _ _ _ (scrollY (win p)) (offsetTop element)).
  - intros a. by apply scroll_update_at_top.
  - by apply frames_last.
  - done.
Qed.

(** ** Witnesses *)

Lemma nav_click_lands_witness :
  reachable accept_all demo_start /\ nav_clickable demo_start "services" = true /\
  layout (win demo_start) = flow_doc (page_blocks 900 800 700 600 900 800 100) /\
  nonneg_heights (page_blocks 900 800 700 600 900 800 100) /\
  flow_doc (page_blocks 900 800 700 600 900 800 100) "services" = Some (mkBox 1700 700) /\
  let q := run accept_all (map WindowScroll (frames 50 40 (scrollY (win demo_start)) 1700))
                (dispatch accept_all (NavClick "services") demo_start) in
  nav q = mkNav "services" false /\ scrollY (win q) = 1700 /\
  scroll_request (win (dispatch accept_all (NavClick "services") demo_start)) = Some 1700.
Proof.
  split; [apply demo_start_reachable|]. split; [reflexivity|]. split; [reflexivity|].
  split; [apply demo_nonneg|]. split; [reflexivity|].
  apply (nav_click_lands accept_all demo_start "services" (page_blocks 900 800 700 600 900 800 100)
           (mkBox 1700 700) 40 50 demo_start_reachable eq_refl eq_refl demo_nonneg eq_refl);
    simpl; lia.
Defined.

End SmoothScroll.
