(* ===== verification/View.v ===== *)
(** * What the page renders

    The JSX of [Portfolio] (page.tsx:171-874) as a function of the state:
    the desktop navigation ([hidden md:block], page.tsx:196-221), the menu
    button and its icon ([md:hidden], page.tsx:224-261), the mobile menu
    (page.tsx:265-293), the form's inputs, submit button and message
    (page.tsx:739-847).  The static sections are in [StaticView]. *)

From S2P Require Import Prelude JsString ScrollTracker Navigation ContactForm Listeners Page Status.
Import ListNotations.
Open Scope page_scope.

Module View.

Import ScrollTracker Navigation ContactForm Listeners Page.

(** A navigation button: its item, its label, and whether it carries the
    active classes ([activeSection === item ? "text-white font-bold" : ...]). *)
Record nav_button := mkButton { nb_item : string; nb_label : string; nb_active : bool }.

Inductive menu_icon := CloseIcon | BurgerIcon.

(** The fixed header: desktop list, menu button, mobile menu. *)
Record header_view := mkHeader {
  desktop_nav : option (list nav_button);
  menu_button : option menu_icon;
  mobile_menu : option (list nav_button);
}.

(** The contact form: the inputs' values, the submit button, the status line. *)
Record form_view := mkFormView {
  input_values : list (string * string);
  submit_disabled : bool;
  submit_label : string;
  message : option (string * message_color);
}.

Record view := mkView { header : header_view; contact_form : form_view }.

(** [["home", "about", "services", "contact"].map((item) => <button ...>)] *)
Definition nav_buttons (activeSection : string) : list nav_button :=
  map (fun item => mkButton item (JsString.nav_label item) (activeSection === item)) nav_items.

(** page.tsx:181-293 *)
Definition render_header (innerWidth : Z) (n : nav_state) : header_view :=
  mkHeader
    (if md innerWidth then Some (nav_buttons (activeSection n)) else None)
    (if md innerWidth then None else Some (if isMenuOpen n then CloseIcon else BurgerIcon))
    (if mobile_menu_shown innerWidth n then Some (nav_buttons (activeSection n)) else None).

(** page.tsx:739-847 *)
Definition render_form (f : form_state) : form_view :=
  mkFormView
    [("name", field_value (formData f) "name");
     ("email", field_value (formData f) "email");
     ("message", field_value (formData f) "message")]
    (isSubmitting f)
    (if isSubmitting f then "Sending..." else "Send Message")
    (match message_view (submitMessage f) with
     | Some c => Some (submitMessage f, c)
     | None => None
     end).

Definition render (p : page) : view :=
  mkView (render_header (innerWidth (win p)) (nav p)) (render_form (form p)).

(** ** Properties *)

Definition active_count (bs : list nav_button) : nat := length (filter (fun b => nb_active b = true) bs).

Lemma nav_buttons_one_active a : In a sections -> active_count (nav_buttons a) = 1%nat.
Proof. intros Hin. repeat destruct Hin as [<-|Hin]; [done..|done]. Qed.

(** C6: in every reachable state, each rendered navigation list
    highlights exactly one button, the active section's. *)
Theorem one_highlighted `{!ActiveTracker} email_ok p :
  reachable email_ok p ->
  (forall bs, desktop_nav (header (render p)) = Some bs \/ mobile_menu (header (render p)) = Some bs ->
     active_count bs = 1%nat /\
     Exists (fun b => nb_item b = activeSection (nav p) /\ nb_active b = true) bs).
Proof.
  intros Hr bs Hbs. pose proof (active_ok_reachable email_ok p Hr) as Ha.
  unfold active_ok in Ha.
  assert (bs = nav_buttons (activeSection (nav p))) as ->.
  { simpl in Hbs. destruct Hbs as [Hbs|Hbs]; by case_match; simplify_eq. }
  split; [by apply nav_buttons_one_active|].
  unfold nav_buttons. apply Exists_exists. exists (mkButton (activeSection (nav p))
    (JsString.nav_label (activeSection (nav p))) true).
  split; [|done]. apply list_elem_of_In, in_map_iff. eexists. split; [|exact Ha].
  by autorewrite with page_rw.
Qed.

(** ** The decorative state is never observed

    [cursorPosition] and [isHoveringLink] are written by their handlers
    (page.tsx:49-51 and every [onMouseEnter]/[onMouseLeave]) and read by
    nothing.  Two pages that differ only there are equivalent: every event
    keeps them equivalent and they render the same. *)

Definition decor_equiv (p q : page) : Prop :=
  form p = form q /\ nav p = nav q /\ win p = win q.

#[export] Instance decor_equiv_equivalence : Equivalence decor_equiv.
Proof.
  unfold decor_equiv. split.
  - done.
  - intros p q (? & ? & ?). done.
  - intros p q r (? & ? & ?) (? & ? & ?). split; [|split]; congruence.
Qed.

#[export] Instance render_proper : Proper (decor_equiv ==> eq) render.
Proof. intros p q (Hf & Hn & Hw). unfold render. by rewrite Hf, Hn, Hw. Qed.

(** Componentwise equalities close an equivalence goal. *)
Ltac decor_solve := repeat split; simpl; congruence.

(** Replace two equivalent pages by their common components. *)
Ltac decor_subst :=
  match goal with
  | H : decor_equiv ?a ?b |- _ =>
      let Hf := fresh in let Hn := fresh in let Hw := fresh in
      destruct H as (Hf & Hn & Hw); destruct a, b; simpl in Hf, Hn, Hw; subst
  end.

Section Dispatch.
Context `{!ActiveTracker} (email_ok : string -> bool).

Lemma deliver_proper t h :
  Proper (decor_equiv ==> decor_equiv) h -> Proper (decor_equiv ==> decor_equiv) (deliver t h).
Proof.
  intros Hh p q Hpq. unfold deliver. destruct Hpq as (Hf & Hn & Hw) eqn:E. rewrite <-Hw.
  generalize (listeners_of t (registry (win p))). intros l.
  revert p q Hpq Hf Hn Hw E. induction l as [|x l IH]; intros p q Hpq ? ? ? ?; simpl; [done|].
  specialize (Hh p q Hpq). destruct Hh as (Hf' & Hn' & Hw') eqn:E'. by eapply IH.
Qed.

Lemma set_nav_proper n : Proper (decor_equiv ==> decor_equiv) (fun p => set_nav p n).
Proof. intros p q (? & ? & ?). by split; [|split]. Qed.

#[export] Instance dispatch_proper e : Proper (decor_equiv ==> decor_equiv) (dispatch email_ok e).
Proof.
  intros p q Hpq. pose proof Hpq as Hpq'. decor_subst.
  destruct e; simpl; try (apply deliver_proper; [intros a b Hab; decor_subst|done]);
    unfold handleScroll_listener, handleResize_listener, nav_clickable; simpl;
    repeat case_match; decor_solve.
Qed.

#[export] Instance run_proper es : Proper (decor_equiv ==> decor_equiv) (run email_ok es).
Proof.
  induction es as [|e es IH]; intros p q Hpq; simpl; [done|].
  apply IH. by apply dispatch_proper.
Qed.

(** C15: what the page shows never depends on the pointer position or on
    the hover flag: pages that differ only in [cursorPosition] and
    [isHoveringLink] render the same after any sequence of events. *)
Theorem decorative_state_invisible p c b es :
  render (run email_ok es (set_hovering (set_cursor p c) b)) = render (run email_ok es p).
Proof.
  apply render_proper, run_proper. by split; [|split].
Qed.

(** C12: the submit message is not cleared when a new submission starts:
    after a completed submission, the next one renders the "Sending..."
    spinner next to the previous green thank-you message. *)
Theorem stale_message_while_sending p :
  reachable email_ok p -> submitMessage (form p) = thank_you ->
  form_submittable email_ok (form p) = true ->
  submit_label (contact_form (render (dispatch email_ok FormSubmit p))) = "Sending..." /\
  message (contact_form (render (dispatch email_ok FormSubmit p))) = Some (thank_you, Green).
Proof.
  intros _ Hm Hs. simpl. rewrite Hs. simpl. rewrite Hm. split; [done|]. by vm_compute.
Qed.

End Dispatch.

(** The form a state renders, on the two status lines the reachable
    states hold ([message_ok]). *)
Lemma render_form_status f :
  submitMessage f = "" \/ submitMessage f = thank_you ->
  (submit_disabled (render_form f) = true <-> Status.status_of f = Status.Submitting) /\
  (Status.status_of f <> Status.Submitting ->
     (message (render_form f) = Some (thank_you, Green) <-> Status.status_of f = Status.Success) /\
     (message (render_form f) = None <-> Status.status_of f = Status.Idle)) /\
  (forall m, message (render_form f) <> Some (m, Red)).
Proof.
  unfold render_form, Status.status_of. cbn [submit_disabled message].
  intros [-> | ->]; destruct (isSubmitting f); vm_compute; naive_solver.
Qed.

(** C25: in every reachable state the rendered form shows the status of
    the spec's submission machine: the submit button is disabled exactly
    while Submitting; outside Submitting, the green thank-you line shows
    exactly on Success and no status line exactly when Idle; a red line is
    never rendered.  (While Submitting the previous green line may still
    show, see C12.) *)
Theorem view_shows_status `{!ActiveTracker} email_ok p :
  reachable email_ok p ->
  let v := contact_form (render p) in
  (submit_disabled v = true <-> Status.status_of (form p) = Status.Submitting) /\
  (Status.status_of (form p) <> Status.Submitting ->
     (message v = Some (thank_you, Green) <-> Status.status_of (form p) = Status.Success) /\
     (message v = None <-> Status.status_of (form p) = Status.Idle)) /\
  (forall m, message v <> Some (m, Red)).
Proof. intros Hr v. apply render_form_status, (message_ok_reachable email_ok p Hr). Qed.

(** ** Witnesses *)

Lemma one_highlighted_witness :
  reachable accept_all demo_filled /\
  desktop_nav (header (render demo_filled)) = Some (nav_buttons "home") /\
  active_count (nav_buttons "home") = 1%nat /\
  Exists (fun b => nb_item b = activeSection (nav demo_filled) /\ nb_active b = true) (nav_buttons "home").
Proof.
  assert (Hd : desktop_nav (header (render demo_filled)) = Some (nav_buttons "home")) by reflexivity.
  split; [apply demo_filled_reachable|]. split; [exact Hd|].
  apply (one_highlighted accept_all demo_filled demo_filled_reachable). by left.
Defined.

(** The page after one completed submission, with the form filled again. *)
Definition demo_resubmit : page :=
  run accept_all [FormSubmit; TimerFire; FieldInput "name" "Ada";
                  FieldInput "email" "ada@example.com"; FieldInput "message" "Again"] demo_filled.

Lemma stale_message_while_sending_witness :
  reachable accept_all demo_resubmit /\ submitMessage (form demo_resubmit) = thank_you /\
  form_submittable accept_all (form demo_resubmit) = true /\
  submit_label (contact_form (render (dispatch accept_all FormSubmit demo_resubmit))) = "Sending..." /\
  message (contact_form (render (dispatch accept_all FormSubmit demo_resubmit))) = Some (thank_you, Green).
Proof.
  assert (Hr : reachable accept_all demo_resubmit) by apply reachable_run, demo_filled_reachable.
  assert (Hm : submitMessage (form demo_resubmit) = thank_you) by reflexivity.
  assert (Hs : form_submittable accept_all (form demo_resubmit) = true) by reflexivity.
  split; [exact Hr|]. split; [exact Hm|]. split; [exact Hs|].
  apply (stale_message_while_sending accept_all demo_resubmit Hr Hm Hs).
Defined.

Lemma view_shows_status_witness :
  reachable accept_all demo_resubmit /\
  (Status.status_of (form demo_resubmit) <> Status.Submitting ->
     (message (contact_form (render demo_resubmit)) = Some (thank_you, Green) <->
      Status.status_of (form demo_resubmit) = Status.Success) /\
     (message (contact_form (render demo_resubmit)) = None <->
      Status.status_of (form demo_resubmit) = Status.Idle)).
Proof.
  assert (Hr : reachable accept_all demo_resubmit) by apply reachable_run, demo_filled_reachable.
  split; [exact Hr|].
  exact (proj1 (proj2 (view_shows_status accept_all demo_resubmit Hr))).
Defined.

End View.
