(* ===== verification/Content.v ===== *)
(** * The page's static content

    The data the page renders without state: the [services] and
    [projects] arrays (page.tsx:124-170), the about items
    (page.tsx:409-425), the skills (page.tsx:518-529), the contact links
    (page.tsx:636-700) and the [id] attributes of the document, on which
    [getElementById] relies. *)

From S2P Require Import Prelude Navigation.
Import ListNotations.
Open Scope string_scope.

Module Content.

Record service := mkService { s_title : string; s_description : string; s_icon : string; s_color : string }.

Definition services : list service :=
  [mkService "Web Design" "Beautiful, responsive websites tailored to your brand" "🖥️"
     "from-purple-500 to-indigo-500";
   mkService "UI/UX Design" "Intuitive user interfaces with exceptional experiences" "🎨"
     "from-pink-500 to-rose-500";
   mkService "Online Game Development" "Interactive browser-based games and applications" "🎮"
     "from-green-500 to-emerald-500";
   mkService "Mobile App Development" "Cross-platform mobile applications for iOS and Android" "📱"
     "from-blue-500 to-cyan-500"].

(** A project; [image] is the imported asset. *)
Record project := mkProject { p_title : string; p_desc : string; p_tags : list string; p_image : string }.

Definition projects : list project :=
  [mkProject "Personal Portfolio" "Modern responsive website with React hooks" ["React"; "Tailwind"]
     "/assets/portfol2.png";
   mkProject "Derartu Hotel Website" "Modern responsive website with React hooks" ["React"; "Tailwind"]
     "/assets/derartu1.png";
   mkProject "Online Game" "Interactive browser game with Canvas API" ["JavaScript"; "HTML5"]
     "/assets/game.jpg"].

Record about_item := mkAbout { a_title : string; a_content : string; a_icon : string }.

Definition about_items : list about_item :=
  [mkAbout "Education" "Computer Science Degree" "🎓";
   mkAbout "Experience" "1+ Years in Web Development" "💼";
   mkAbout "Projects" "5+ Completed Projects" "🚀"].

Record skill := mkSkill { sk_name : string; sk_level : Z }.

Definition skills : list skill :=
  [mkSkill "HTML" 90; mkSkill "CSS" 85; mkSkill "JavaScript" 80; mkSkill "React" 75;
   mkSkill "Next.js" 70; mkSkill "Tailwind CSS" 85; mkSkill "Git" 70; mkSkill "TypeScript" 65;
   mkSkill "Node.js" 60; mkSkill "Figma" 75].

(** A contact entry: its caption, its [href] (none for the location) and
    the text shown. *)
Record contact_entry := mkContact { c_caption : string; c_href : option string; c_text : string }.

Definition contact_entries : list contact_entry :=
  [mkContact "Email" (Some "mailto:firaolmengistu796@gmail.com") "firaolmengistu796@gmail.com";
   mkContact "GitHub" (Some "https://github.com/firaol1214") "github.com/firaol1214";
   mkContact "Location" None "Bale Robe, Bole";
   mkContact "Phone" (Some "tel:+251957034895") "+251957034895"].

(** The [id] attributes of the document, in tree order. *)
Definition element_ids : list string :=
  ["home"; "home-heading"; "about"; "about-heading"; "services"; "services-heading";
   "skills-heading"; "projects-heading"; "contact"; "contact-heading";
   "name"; "email"; "message"].

End Content.
