(* ===== verification/Animations.v ===== *)
(** * The framer-motion variants of the page

    [sectionVariants] and [itemVariants] (page.tsx:110-122) say how each
    section and item appears: from [hidden] (transparent, shifted down) to
    [visible].  [itemVariants.visible] is a function of the element's
    [custom] prop: [(i) => ({ ..., transition: { delay: i * 0.1,
    duration: 0.5 } })].  Delays are kept in milliseconds ([i * 0.1] s is
    [i * 100] ms; the float rounding of [i * 0.1], below a nanosecond, is
    not modelled).  An element without [custom] passes [undefined], and
    [undefined * 0.1] is [NaN]. *)

From S2P Require Import Prelude Content.
Import ListNotations.
Open Scope Z_scope.

Module Animations.

Import Content.

(** A JavaScript number of milliseconds as framer-motion receives it. *)
Inductive js_ms := Ms (v : Z) | NaN.

(** An animation target: opacity in percent, vertical offset in pixels,
    and the transition's delay and duration when they are given. *)
Record target := mkTarget {
  opacity : Z; offset_y : Z; t_delay : option js_ms; t_duration : option js_ms;
}.

(** [sectionVariants] *)
Definition section_hidden : target := mkTarget 0 50 None None.
Definition section_visible : target := mkTarget 100 0 None (Some (Ms 600)).

(** [undefined * 0.1] is [NaN]; a number [i] gives [i * 100] ms. *)
Definition times_tenth_second (custom : option Z) : js_ms :=
  match custom with
  | Some i => Ms (i * 100)
  | None => NaN
  end.

(** [itemVariants] *)
Definition item_hidden : target := mkTarget 0 20 None None.
Definition item_visible (custom : option Z) : target :=
  mkTarget 100 0 (Some (times_tenth_second custom)) (Some (Ms 500)).

(** The [custom] each list passes to its items: the about items
    [index + 1] (page.tsx:429), services [index] (475), skills [index]
    (532), projects [i] (568), the contact columns 0, 1, 2 (634, 711, 732). *)
Definition about_customs : list Z := map (fun index => index + 1) (seqZ 0 (Z.of_nat (length about_items))).
Definition service_customs : list Z := seqZ 0 (Z.of_nat (length services)).
Definition skill_customs : list Z := seqZ 0 (Z.of_nat (length skills)).
Definition project_customs : list Z := seqZ 0 (Z.of_nat (length projects)).
Definition contact_customs : list Z := [0; 1; 2].

End Animations.
