(* ===== verification/StaticView.v ===== *)
(** * The markup of the static sections

    The JSX that renders the page's data without reading state: the
    sections with their [aria-labelledby] headings (page.tsx:296-851), the
    about cards (426-443), the service cards (472-493), the skill cards
    (518-540), the project cards with their images and tags (564-602), the
    columns of the contact section (632-738) and the footer (854-871).
    Each [.map((x, index) => ...)] is [imap]: the callback receives the
    element and its index, which the markup uses as the React [key] and
    as the [custom] of [itemVariants].  The file holds the model only:
    what it renders is fixed data, so its properties would be
    computations on constants. *)

From S2P Require Import Prelude Content Animations.
From stdpp Require Import pretty.
Import ListNotations.
Open Scope string_scope.

Module StaticView.

Import Content Animations.

(** A [<section>]: its [id] when it has one, the id its
    [aria-labelledby] names, and its heading's [id] and text. *)
Record section_view := mkSection {
  sec_id : option string; labelledby : string; heading_id : string; heading_text : string;
}.

Definition page_sections : list section_view :=
  [mkSection (Some "home") "home-heading" "home-heading" "Hi! I'm Firaol Mengistu";
   mkSection (Some "about") "about-heading" "about-heading" "About Me";
   mkSection (Some "services") "services-heading" "services-heading" "My Services";
   mkSection None "skills-heading" "skills-heading" "My Toolkit";
   mkSection None "projects-heading" "projects-heading" "My Latest Work";
   mkSection (Some "contact") "contact-heading" "contact-heading" "Get In Touch"].

(** An about card: [key={index}], [custom={index + 1}], icon, title, content. *)
Record about_card := mkAboutCard {
  ac_key : nat; ac_custom : Z; ac_icon : string; ac_title : string; ac_content : string;
}.

Definition render_about (items : list about_item) : list about_card :=
  imap (fun index item =>
          mkAboutCard index (Z.of_nat index + 1) (a_icon item) (a_title item) (a_content item))
       items.

(** The hover overlay's class template of a service card. *)
Definition overlay_class (color : string) : string :=
  "absolute inset-0 bg-gradient-to-br " ++ color ++
  " opacity-0 group-hover:opacity-20 transition-opacity duration-500".

(** A service card: [key={index}], [custom={index}], overlay, icon, title,
    description. *)
Record service_card := mkServiceCard {
  sc_key : nat; sc_custom : Z; sc_overlay : string; sc_icon : string;
  sc_title : string; sc_description : string;
}.

Definition render_services (ss : list service) : list service_card :=
  imap (fun index s =>
          mkServiceCard index (Z.of_nat index) (overlay_class (s_color s)) (s_icon s)
                        (s_title s) (s_description s))
       ss.

(** A skill card shows the name only: [level] is not read. *)
Record skill_card := mkSkillCard { skc_key : nat; skc_custom : Z; skc_name : string }.

Definition render_skills (ks : list skill) : list skill_card :=
  imap (fun index k => mkSkillCard index (Z.of_nat index) (sk_name k)) ks.

(** A tag of a project: [<span key={j}>{tag}</span>]. *)
Record tag_span := mkTag { t_key : nat; t_text : string }.

(** A project card: [key={i}], [custom={i}], the [Image] with [src] and
    [alt], the title, the description and the tags. *)
Record project_card := mkProjectCard {
  pc_key : nat; pc_custom : Z; pc_src : string; pc_alt : string;
  pc_title : string; pc_desc : string; pc_tags : list tag_span;
}.

Definition render_tags (tags : list string) : list tag_span := imap mkTag tags.

Definition render_projects (ps : list project) : list project_card :=
  imap (fun i p =>
          mkProjectCard i (Z.of_nat i) (p_image p) (p_title p) (p_title p) (p_desc p)
                        (render_tags (p_tags p)))
       ps.

(** The three columns of the contact section, with the [custom] each
    passes to [itemVariants] and its heading; the first holds the contact
    links ([Content.contact_entries]), the third the form ([View]). *)
Record contact_column := mkColumn { col_custom : Z; col_heading : string }.

Definition contact_columns : list contact_column :=
  [mkColumn 0 "Contact Information"; mkColumn 1 "Availability"; mkColumn 2 "Send Me a Message"].

(** The footer's line: [© {new Date().getFullYear()} Firaol Mengistu. All
    rights reserved.], for the year the browser's clock gives. *)
Definition footer_text (year : Z) : string :=
  "© " ++ pretty year ++ " Firaol Mengistu. All rights reserved.".

End StaticView.
